(** * kmodui: the module parameter model and the edit workflow

    A shallow embedding of [src/kmodui.py]: the three parameter source
    readers ([read_sysfs_params], [get_modinfo_details], [get_etc_configs]),
    the model builder [get_module_model], the fuzzy filter of
    [KModUI.on_input_changed] and the edit workflow of
    [KModUI.action_edit_parameter] with its [check_edit] callback; then
    [get_loaded_modules], [format_module_details], the buttons of
    [EditModal], and [on_mount] and [_render_list] of [KModUI].

    Python [str] values are ASCII strings ([String.string]); Python
    whitespace is the ASCII part of [str.isspace].  The filesystem, the
    [modinfo] tool and the configuration directory are a snapshot, the
    [World]: it does not change while one model is built, so an existing
    parameter directory can be listed and [p.stat()] succeeds on an entry
    that [p.is_file()] reported as a file.  Exceptions are the [Exc] monad
    below: reading a file and running [modinfo] can raise (a [raise]),
    every [try]/[except] is a [try_]. *)

From Stdlib Require Import String Ascii List ZArith QArith Qround Lia
  Sorted Permutation Bool Lqa.
From stdpp Require Import base gmap strings list.

Import ListNotations.
Open Scope string_scope.

(* ------------------------------------------------------------------ *)
(** ** Python string builtins *)

(** [str.isspace] on ASCII characters: [\t \n \v \f \r], [\x1c]-[\x1f], space. *)
Definition is_space (c : ascii) : bool :=
  let n := nat_of_ascii c in
  (((9 <=? n) && (n <=? 13)) || ((28 <=? n) && (n <=? 32)))%nat.

Fixpoint lstrip (s : string) : string :=
  match s with
  | EmptyString => EmptyString
  | String c r => if is_space c then lstrip r else s
  end.

Fixpoint rstrip (s : string) : string :=
  match s with
  | EmptyString => EmptyString
  | String c r =>
      let r' := rstrip r in
      if is_space c && String.eqb r' "" then "" else String c r'
  end.

(** [str.strip()] *)
Definition strip (s : string) : string := rstrip (lstrip s).

(** [str.split()] (no separator): maximal runs of non-whitespace. *)
Fixpoint split_ws_aux (cur : string) (s : string) : list string :=
  match s with
  | EmptyString => if String.eqb cur "" then [] else [cur]
  | String c r =>
      if is_space c then
        if String.eqb cur "" then split_ws_aux "" r
        else cur :: split_ws_aux "" r
      else split_ws_aux (cur ++ String c "") r
  end.

Definition split_ws (s : string) : list string := split_ws_aux "" s.

(** Line boundaries of [str.splitlines()] in ASCII: [\n \v \f \r] (and
    [\r\n] as one boundary), [\x1c \x1d \x1e]. *)
Definition is_line_break (c : ascii) : bool :=
  let n := nat_of_ascii c in
  (((10 <=? n) && (n <=? 13)) || ((28 <=? n) && (n <=? 30)))%nat.

Fixpoint splitlines_aux (cur : string) (s : string) : list string :=
  match s with
  | EmptyString => if String.eqb cur "" then [] else [cur]
  | String c r =>
      if Ascii.eqb c "013"%char then
        match r with
        | String d r' =>
            if Ascii.eqb d "010"%char then cur :: splitlines_aux "" r'
            else cur :: splitlines_aux "" r
        | EmptyString => [cur]
        end
      else if is_line_break c then cur :: splitlines_aux "" r
      else splitlines_aux (cur ++ String c "") r
  end.

(** [str.splitlines()] *)
Definition splitlines (s : string) : list string := splitlines_aux "" s.

(** [sep in s] together with [s.split(sep, 1)]: [None] when [sep] does not
    occur, otherwise the text before and after its first occurrence. *)
Fixpoint partition_at (sep : ascii) (s : string) : option (string * string) :=
  match s with
  | EmptyString => None
  | String c r =>
      if Ascii.eqb c sep then Some ("", r)
      else match partition_at sep r with
           | Some (a, b) => Some (String c a, b)
           | None => None
           end
  end.

(* ------------------------------------------------------------------ *)
(** ** Exceptions *)

(** A computation that returns an [A] or raises an exception, carried by
    its message ([str(e)]). *)
Definition Exc (A : Type) : Type := (string + A)%type.

Definition ret {A} (a : A) : Exc A := inr a.
Definition raise {A} (e : string) : Exc A := inl e.
Definition exc_bind {A B} (m : Exc A) (k : A -> Exc B) : Exc B :=
  match m with inl e => inl e | inr a => k a end.
(** [try: m except Exception as e: h(e)] *)
Definition try_ {A} (m : Exc A) (h : string -> Exc A) : Exc A :=
  match m with inl e => h e | inr a => inr a end.

Notation "'let!' x ':=' m 'in' k" := (exc_bind m (fun x => k))
  (at level 200, x name, m at level 100, k at level 200).

(* ------------------------------------------------------------------ *)
(** ** The world the readers see *)

(** A directory entry under [/sys/module/<m>/parameters]: a regular file
    with its permission bits and its content ([None]: reading it raises),
    or anything else ([p.is_file()] is false). *)
Inductive ekind :=
| EFile (mode : Z) (content : option string)
| EOther.

Record entry := mk_entry { ename : string; ekind_of : ekind }.

Record World := mk_world {
  (** [/sys/module/<m>/parameters]: [None] when it does not exist *)
  sys_param_dir : string -> option (list entry);
  (** [modinfo -p <m>]: [None] when [subprocess.run] raises (tool
      missing), otherwise the return code and the standard output *)
  modinfo_run : string -> option (Z * string);
  (** [/etc/modprobe.d]: [None] when it does not exist, otherwise the
      result of [glob("*.conf")], in glob order: each file's name and its
      content ([None]: [read_text()] raises) *)
  modprobe_d : option (list (string * option string))
}.

(** [Path.read_text()] *)
Definition read_text (c : option string) : Exc string :=
  match c with Some t => ret t | None => raise "OSError" end.

(* ------------------------------------------------------------------ *)
(** ** Records *)

Definition UNREADABLE : string := "<Unreadable>".
Definition NO_DESC : string := "No description available.".

(** An element of the list returned by [read_sysfs_params]. *)
Record param := mk_param {
  p_name : string; p_current : string; p_writable : bool; p_path : string }.

(** An element of a list in the mapping of [get_etc_configs]. *)
Record override := mk_override {
  o_value : string; o_file : string; o_line : string }.

(** [{**p, "desc": ..., "persistent": ...}] in [get_module_model]. *)
Record mparam := mk_mparam {
  name : string; current : string; writable : bool; path : string;
  desc : string; persistent : list override }.

Record module_model := mk_model { module : string; params : list mparam }.

(* ------------------------------------------------------------------ *)
(** ** [read_sysfs_params] *)

(** [sorted(param_dir.iterdir(), key=lambda x: x.name)]: a stable
    insertion sort on the names. *)
Fixpoint insert_by_name (e : entry) (l : list entry) : list entry :=
  match l with
  | [] => [e]
  | x :: r => if String.leb (ename e) (ename x) then e :: x :: r
              else x :: insert_by_name e r
  end.

Fixpoint sort_by_name (l : list entry) : list entry :=
  match l with
  | [] => []
  | e :: r => insert_by_name e (sort_by_name r)
  end.

Definition param_path (m n : string) : string :=
  "/sys/module/" ++ m ++ "/parameters/" ++ n.

(** [bool(mode & 0o222)] *)
Definition is_globally_writable (mode : Z) : bool :=
  negb (Z.eqb (Z.land mode 146) 0).

(** The loop body for one entry [p]. *)
Definition read_param (m : string) (p : entry) (params : list param)
  : Exc (list param) :=
  match ekind_of p with
  | EOther => ret params
  | EFile mode c =>
      let w := is_globally_writable mode in
      let! cur := try_ (let! t := read_text c in ret (strip t))
                       (fun _ => ret UNREADABLE) in
      ret (params ++ [mk_param (ename p) cur w (param_path m (ename p))])%list
  end.

Fixpoint read_params_loop (m : string) (es : list entry) (params : list param)
  : Exc (list param) :=
  match es with
  | [] => ret params
  | p :: r => let! params' := read_param m p params in read_params_loop m r params'
  end.

Definition read_sysfs_params (w : World) (m : string) : Exc (list param) :=
  match sys_param_dir w m with
  | None => ret []
  | Some es => read_params_loop m (sort_by_name es) []
  end.

(* ------------------------------------------------------------------ *)
(** ** [get_modinfo_details] *)

Definition modinfo_line (out : gmap string string) (line : string)
  : gmap string string :=
  let clean := strip line in
  if String.eqb clean "" then out
  else match partition_at ":" clean with
       | None => out
       | Some (n, d) => <[strip n := strip d]> out
       end.

Definition get_modinfo_details (w : World) (m : string)
  : Exc (gmap string string) :=
  try_ (match modinfo_run w m with
        | None => raise "FileNotFoundError: modinfo"
        | Some (rc, stdout) =>
            if negb (Z.eqb rc 0) then ret ∅
            else ret (fold_left modinfo_line (splitlines stdout) ∅)
        end)
       (fun _ => ret ∅).

(* ------------------------------------------------------------------ *)
(** ** [get_etc_configs] *)

Definition etc_part (fname line : string) (configs : gmap string (list override))
  (part : string) : gmap string (list override) :=
  match partition_at "=" part with
  | None => configs
  | Some (p_name, p_value) =>
      <[p_name := (default [] (configs !! p_name) ++
                   [mk_override p_value fname line])%list]> configs
  end.

Definition etc_line (m fname : string) (configs : gmap string (list override))
  (raw : string) : gmap string (list override) :=
  let line := strip raw in
  if String.eqb line "" || String.prefix "#" line then configs
  else
    let parts := split_ws line in
    if (3 <=? List.length parts)%nat
       && String.eqb (nth 0 parts "") "options"
       && String.eqb (nth 1 parts "") m
    then fold_left (etc_part fname line) (skipn 2 parts) configs
    else configs.

Definition etc_file (m : string) (configs : gmap string (list override))
  (f : string * option string) : Exc (gmap string (list override)) :=
  try_ (let! text := read_text (snd f) in
        ret (fold_left (etc_line m (fst f)) (splitlines text) configs))
       (fun _ => ret configs).

Fixpoint etc_loop (m : string) (fs : list (string * option string))
  (configs : gmap string (list override)) : Exc (gmap string (list override)) :=
  match fs with
  | [] => ret configs
  | f :: r => let! configs' := etc_file m configs f in etc_loop m r configs'
  end.

Definition get_etc_configs (w : World) (m : string)
  : Exc (gmap string (list override)) :=
  match modprobe_d w with
  | None => ret ∅
  | Some fs => etc_loop m fs ∅
  end.

(* ------------------------------------------------------------------ *)
(** ** [get_module_model] *)

Definition merge_param (descs : gmap string string)
  (etc : gmap string (list override)) (p : param) : mparam :=
  mk_mparam (p_name p) (p_current p) (p_writable p) (p_path p)
    (default NO_DESC (descs !! p_name p))
    (default [] (etc !! p_name p)).

Definition get_module_model (w : World) (m : string) : Exc module_model :=
  let! descs := get_modinfo_details w m in
  let! etc := get_etc_configs w m in
  let! ps := read_sysfs_params w m in
  ret (mk_model m (map (merge_param descs etc) ps)).

(* ------------------------------------------------------------------ *)
(** ** The fuzzy filter of [KModUI.on_input_changed] *)

(** Python's [round] on a number: half to even. *)
Definition py_round (x : Q) : Z :=
  let f := Qfloor x in
  let d := (x - inject_Z f)%Q in
  if Qeq_bool d (1#2) then (if Z.even f then f else f + 1)%Z
  else if Qle_bool d (1#2) then f else (f + 1)%Z.

Section Filter.

(** The similarity the library computes for a query and a choice, before
    [thefuzz] rounds it to an integer ([fuzz.WRatio] on the processed
    strings); the library is not part of this repository, so it is a
    parameter of the development. *)
Variable raw_score : string -> string -> Q.

(** The score [process.extract] reports: [int(round(score))]. *)
Definition score (q c : string) : Z := py_round (raw_score q c).

(** The library's ordering: by descending raw score, ties in the order of
    the choices (a stable sort). *)
Fixpoint insert_desc (x : string * Q) (l : list (string * Q)) : list (string * Q) :=
  match l with
  | [] => [x]
  | y :: r => if Qle_bool (snd y) (snd x) then x :: y :: r else y :: insert_desc x r
  end.

Fixpoint sort_desc (l : list (string * Q)) : list (string * Q) :=
  match l with
  | [] => []
  | x :: r => insert_desc x (sort_desc r)
  end.

(** [process.extract(q, choices, limit=limit)]: every choice is kept
    ([score_cutoff=0]), the [limit] best are returned with their rounded
    scores. *)
Definition extract (q : string) (choices : list string) (limit : nat)
  : list (string * Z) :=
  map (fun r => (fst r, py_round (snd r)))
      (firstn limit (sort_desc (map (fun c => (c, raw_score q c)) choices))).

(** [threshold = 65 if len(q) >= 2 else 50] *)
Definition threshold (q : string) : Z :=
  if (2 <=? String.length q)%nat then 65%Z else 50%Z.

(** [ranked] and its fallback, from [results] on. *)
Definition select (thr : Z) (results : list (string * Z)) : list string :=
  match map fst (List.filter (fun r => Z.leb thr (snd r)) results) with
  | [] => map fst (firstn 20 results)
  | ranked => ranked
  end.

(** The new value of [self.filtered] for the search text [value]. *)
Definition on_input_changed (value : string) (all_modules : list string)
  : list string :=
  let q := strip value in
  if String.eqb q "" then all_modules
  else select (threshold q) (extract q all_modules 200).

End Filter.

(* ------------------------------------------------------------------ *)
(** ** The edit workflow of [KModUI] *)

Inductive severity := Information | Warning | Error.

(** The part of the application state the workflow reads and writes.
    [u_model] is [self.current_model]; the children of [#param_list] are
    built from it by [_load_details], so they are [params] of it.
    [u_prompt] is the open [EditModal] with the record it was opened for.
    [u_writes] logs each call of [Path(p['path']).write_text(v)] with the
    record [p] it was made for. *)
Record ui := mk_ui {
  u_world : World;
  u_model : option module_model;
  u_index : option nat;
  u_prompt : option mparam;
  u_notes : list (severity * string);
  u_writes : list (mparam * string)
}.

Definition notify (s : ui) (sev : severity) (msg : string) : ui :=
  mk_ui (u_world s) (u_model s) (u_index s) (u_prompt s)
        (u_notes s ++ [(sev, msg)])%list (u_writes s).

Definition set_prompt (s : ui) (p : option mparam) : ui :=
  mk_ui (u_world s) (u_model s) (u_index s) p (u_notes s) (u_writes s).

Definition set_index (s : ui) (i : option nat) : ui :=
  mk_ui (u_world s) (u_model s) i (u_prompt s) (u_notes s) (u_writes s).

Definition param_children (s : ui) : list mparam :=
  match u_model s with None => [] | Some md => params md end.

Definition WARN_SELECT : string :=
  "Select a parameter on the right using the arrow keys".
Definition warn_not_writable (n : string) : string :=
  "Parameter " ++ n ++ " is not writable at runtime".
Definition ok_updated (n v : string) : string := "Updated: " ++ n ++ " = " ++ v.
Definition err_write (e : string) : string := "Error: " ++ e.
Definition err_ui (e : string) : string := "UI error: " ++ e.

(** [_load_details(module_name)]: [self.current_model] is replaced by a
    fresh model; [param_list.clear()] leaves no selection. *)
Definition load_details (s : ui) (m : string) : Exc ui :=
  let! md := get_module_model (u_world s) m in
  ret (mk_ui (u_world s) (Some md) None (u_prompt s) (u_notes s) (u_writes s)).

Section Workflow.

(** [Path(path).write_text(value)]: the world after the attempt, and the
    message of the exception when it raised.  The kernel decides, so this
    is a parameter. *)
Variable write_text : World -> string -> string -> World * option string.

(** [check_edit], called with the value the modal was dismissed with. *)
Definition check_edit (p : mparam) (new_value : option string) (s : ui) : ui :=
  match new_value with
  | None => s
  | Some v =>
      let '(w', err) := write_text (u_world s) (path p) v in
      let s1 := mk_ui w' (u_model s) (u_index s) (u_prompt s) (u_notes s)
                      (u_writes s ++ [(p, v)])%list in
      match err with
      | Some e => notify s1 Error (err_write e)
      | None =>
          let s2 := notify s1 Information (ok_updated (name p) v) in
          match u_model s2 with
          | None => notify s2 Error (err_write "AttributeError: current_model")
          | Some md =>
              match load_details s2 (module md) with
              | inl e => notify s2 Error (err_write e)
              | inr s3 => s3
              end
          end
      end
  end.

(** [action_edit_parameter].  While the modal is open, [query_one] looks
    for [#param_list] on the modal screen, which has none. *)
Definition action_edit_parameter (s : ui) : ui :=
  match u_prompt s with
  | Some _ => notify s Error (err_ui "NoMatches: #param_list")
  | None =>
      match u_index s with
      | None => notify s Warning WARN_SELECT
      | Some i =>
          match nth_error (param_children s) i with
          | None => notify s Error (err_ui "IndexError: list index out of range")
          | Some p =>
              if negb (writable p) then notify s Warning (warn_not_writable (name p))
              else set_prompt s (Some p)
          end
      end
  end.

Inductive event :=
| EvEdit                      (** key [e], or Enter/click on a parameter *)
| EvClose (v : option string) (** Save with the input's value, or Cancel *)
| EvSelectModule (m : string) (** a module chosen in the left list *)
| EvMoveIndex (i : option nat). (** the highlighted parameter moves *)

(** One event.  The modal screen takes all input while it is open. *)
Definition step (s : ui) (ev : event) : ui :=
  match ev with
  | EvEdit => action_edit_parameter s
  | EvClose v =>
      match u_prompt s with
      | None => s
      | Some p => check_edit p v (set_prompt s None)
      end
  | EvSelectModule m =>
      match u_prompt s with
      | Some _ => s
      | None => match load_details s m with inl _ => s | inr s' => s' end
      end
  | EvMoveIndex i =>
      match u_prompt s with
      | Some _ => s
      | None => set_index s i
      end
  end.

Definition run (s : ui) (evs : list event) : ui := fold_left step evs s.

End Workflow.

(* ------------------------------------------------------------------ *)
(** ** [get_loaded_modules] *)

(** An entry of [/sys/module]: its name and whether [d.is_dir()]. *)
Record sys_entry := mk_sys_entry { sname : string; sis_dir : bool }.

(** [sorted] on a list of strings. *)
Fixpoint insert_string (x : string) (l : list string) : list string :=
  match l with
  | [] => [x]
  | y :: r => if String.leb x y then x :: y :: r else y :: insert_string x r
  end.

Fixpoint sort_strings (l : list string) : list string :=
  match l with
  | [] => []
  | x :: r => insert_string x (sort_strings r)
  end.

(** [/sys/module] is [None] when it does not exist. *)
Definition get_loaded_modules (sys_module : option (list sys_entry)) : list string :=
  match sys_module with
  | None => []
  | Some ds => sort_strings (map sname (List.filter sis_dir ds))
  end.

(* ------------------------------------------------------------------ *)
(** ** [EditModal] *)

(** The modal's input starts with [p['current']], passed by
    [action_edit_parameter]. *)
Definition edit_modal_initial (p : mparam) : string := current p.

(** [EditModal.on_button_pressed]: [save] dismisses with the input's
    value, any other button with [None]. *)
Definition edit_modal_dismiss (button_id : string) (input_value : string)
  : option string :=
  if String.eqb button_id "save" then Some input_value else None.

(* ------------------------------------------------------------------ *)
(** ** The module list of [KModUI] *)

(** [self.all_modules], [self.filtered] and the rest of the state. *)
Record app := mk_app { a_all : list string; a_filtered : list string; a_ui : ui }.

(** [_render_list(names)]: when [names] is not empty, the details of its
    first name are loaded. *)
Definition render_list (names : list string) (s : ui) : ui :=
  match names with
  | [] => s
  | n :: _ => match load_details s n with inr s' => s' | inl _ => s end
  end.

(** [on_mount] *)
Definition app_on_mount (sys_module : option (list sys_entry)) (s : ui) : app :=
  let all := get_loaded_modules sys_module in
  mk_app all all (render_list all s).

(** [on_input_changed] on the [#search] input, both branches of which end
    in [_render_list(self.filtered)]. *)
Definition app_input_changed (raw_score : string -> string -> Q) (a : app)
  (value : string) : app :=
  let f := on_input_changed raw_score value (a_all a) in
  mk_app (a_all a) f (render_list f (a_ui a)).

(* ------------------------------------------------------------------ *)
(** ** [format_module_details] *)

Definition nl : string := String "010" "".

(** The lines the loop appends for one record [p]. *)
Definition detail_lines (p : mparam) : list string :=
  let rw := if writable p then " (runtime writable)" else "" in
  List.app ["[b]" ++ name p ++ "[/b] = " ++ current p ++ rw; "  Info: " ++ desc p]
   (List.app match persistent p with
        | [] => []
        | items =>
            map (fun item => "  Persistent: " ++ o_file item ++ " -> " ++ o_line item)
                items
        end [""]).

(** [format_module_details(model)]; [String.concat nl] is ["\n".join]. *)
Definition format_module_details (md : module_model) : string :=
  match params md with
  | [] => "[b]" ++ module md ++ "[/b]" ++ nl ++ nl ++
          "No parameters available (or no sysfs params)."
  | ps => strip (String.concat nl (List.app ["[b]" ++ module md ++ "[/b]"; ""]
                                        (flat_map detail_lines ps)))
  end.

(* ------------------------------------------------------------------ *)
(** ** Auxiliary definitions for the statements *)

(** The records the loop body of [read_sysfs_params] appends for one
    directory entry. *)
Definition entry_record (m : string) (p : entry) : list param :=
  match ekind_of p with
  | EOther => []
  | EFile mode c =>
      [mk_param (ename p)
                (match c with Some t => strip t | None => UNREADABLE end)
                (is_globally_writable mode) (param_path m (ename p))]
  end.

Definition is_file_entry (p : entry) : bool :=
  match ekind_of p with EFile _ _ => true | EOther => false end.

Definition name_le (a b : entry) : Prop := String.leb (ename a) (ename b) = true.

(** The directives the claim describes, as one list of (key, override)
    pairs in file order, then line order, then token order: files whose
    read raises contribute nothing; a line contributes when, once trimmed,
    it is not blank, does not start with [#], has at least three
    whitespace-separated tokens, the first being [options] and the second
    the module name; each later token containing [=] gives the text before
    the first [=] as key and the text after it as value. *)
Definition token_override (fname line tok : string) : list (string * override) :=
  match partition_at "=" tok with
  | Some (k, v) => [(k, mk_override v fname line)]
  | None => []
  end.

Definition line_directives (m fname raw : string) : list (string * override) :=
  let line := strip raw in
  let toks := split_ws line in
  if negb (String.eqb line "") && negb (String.prefix "#" line)
     && (3 <=? List.length toks)%nat
     && String.eqb (nth 0 toks "") "options" && String.eqb (nth 1 toks "") m
  then flat_map (token_override fname line) (skipn 2 toks)
  else [].

Definition file_directives (m : string) (f : string * option string)
  : list (string * override) :=
  match snd f with
  | None => []
  | Some text => flat_map (line_directives m (fst f)) (splitlines text)
  end.

Definition for_key (k : string) (l : list (string * override)) : list override :=
  map snd (List.filter (fun kv => String.eqb (fst kv) k) l).

(** The list the claim promises for the key [k]. *)
Definition etc_configs_claim (m : string) (fs : list (string * option string))
  (k : string) : list override :=
  for_key k (flat_map (file_directives m) fs).

Definition desc_le (a b : string * Q) : Prop := (snd b <= snd a)%Q.

(** Only records marked writable are ever open in the modal, and only
    they are written. *)
Definition edit_inv (s : ui) : Prop :=
  (forall q, u_prompt s = Some q -> writable q = true) /\
  (forall q v, In (q, v) (u_writes s) -> writable q = true).


(** A string without whitespace. *)
Definition no_space (t : string) : Prop :=
  forall c, In c (list_ascii_of_string t) -> is_space c = false.

(** The (name, description) pair a line of [modinfo -p] output gives, if
    any: the loop body of [get_modinfo_details] without the insertion. *)
Definition modinfo_entry (line : string) : list (string * string) :=
  let clean := strip line in
  if String.eqb clean "" then []
  else match partition_at ":" clean with
       | None => []
       | Some (n, d) => [(strip n, strip d)]
       end.


(* ------------------------------------------------------------------ *)
(** ** Sample data *)

(** The parameter directory of a module [e1000e]: [b] (mode 0o644, value
    [5]), [a] (mode 0o444, unreadable) and a subdirectory [d]. *)
Definition sample_entries : list entry :=
  [mk_entry "b" (EFile 420 (Some " 5
")); mk_entry "a" (EFile 292 None); mk_entry "d" EOther].

Definition sample_world : World :=
  mk_world
    (fun m => if String.eqb m "e1000e" then Some sample_entries else None)
    (fun _ => Some (0%Z, "a:first desc
 b : second
"))
    (Some [("a.conf", Some "options e1000e InterruptThrottleRate=3000 a=1
# options e1000e a=2
");
           ("b.conf", None)]).

(** No parameter directory, no [modinfo], no [/etc/modprobe.d]. *)
Definition empty_world : World := mk_world (fun _ => None) (fun _ => None) None.

Definition sample_descs : gmap string string :=
  Eval vm_compute in
    match get_modinfo_details sample_world "e1000e" with inr d => d | inl _ => ∅ end.

Definition sample_etc : gmap string (list override) :=
  Eval vm_compute in
    match get_etc_configs sample_world "e1000e" with inr c => c | inl _ => ∅ end.

Definition sample_model : module_model :=
  Eval vm_compute in
    match get_module_model sample_world "e1000e" with
    | inr md => md | inl _ => mk_model "" []
    end.

(** The two rows of [sample_model]. *)
Definition sample_row_a : mparam :=
  Eval vm_compute in nth 0 (params sample_model) (mk_mparam "" "" false "" "" []).
Definition sample_row_b : mparam :=
  Eval vm_compute in nth 1 (params sample_model) (mk_mparam "" "" false "" "" []).

(** A stand-in for the library's similarity: 90 for a prefix of the
    choice, 10 otherwise. *)
Definition prefix_score (q c : string) : Q := if String.prefix q c then 90 else 10.

(** A write the kernel accepts, and one it refuses. *)
Definition write_ok (w : World) (_ _ : string) : World * option string := (w, None).
Definition write_einval (w : World) (_ _ : string) : World * option string :=
  (w, Some "[Errno 22] Invalid argument").

(** The application showing [sample_model], the highlighted row being
    [index]. *)
Definition sample_ui (index : option nat) (prompt : option mparam) : ui :=
  mk_ui sample_world (Some sample_model) index prompt [] [].

(** A parameter file that keeps what is written to it, as the kernel
    shows it back: followed by a newline. *)
Definition sysfs_store (w : World) (pth v : string) : World * option string :=
  (mk_world
     (fun m => option_map
        (map (fun e => match ekind_of e with
                       | EFile mode _ =>
                           if String.eqb (param_path m (ename e)) pth
                           then mk_entry (ename e) (EFile mode (Some (v ++ nl))) else e
                       | EOther => e
                       end))
        (sys_param_dir w m))
     (modinfo_run w) (modprobe_d w), None).

(** The parameter directory of [e1000e] once [8] is written to [b]. *)
Definition sample_entries_8 : list entry :=
  Eval vm_compute in
    default [] (sys_param_dir (fst (sysfs_store sample_world (path sample_row_b) "8"))
                              "e1000e").

(* ================================================================== *)
(** * Properties *)

(* ------------------------------------------------------------------ *)
(** ** The live parameter reader *)

Lemma read_param_eq m p ps :
  read_param m p ps = inr (ps ++ entry_record m p)%list.
Proof.
  destruct p as [n [mode [c|]|]]; simpl; try reflexivity.
  by rewrite app_nil_r.
Qed.

Lemma read_params_loop_eq m es ps :
  read_params_loop m es ps = inr (ps ++ flat_map (entry_record m) es)%list.
Proof.
  revert ps; induction es as [|p es IH]; intros ps; simpl.
  - by rewrite app_nil_r.
  - rewrite read_param_eq; simpl. by rewrite IH, app_assoc.
Qed.

Lemma read_sysfs_params_eq w m :
  read_sysfs_params w m =
  inr (match sys_param_dir w m with
       | None => []
       | Some es => flat_map (entry_record m) (sort_by_name es)
       end).
Proof.
  unfold read_sysfs_params. destruct (sys_param_dir w m); [|reflexivity].
  by rewrite read_params_loop_eq.
Qed.

Lemma names_entry_records m l :
  map p_name (flat_map (entry_record m) l) = map ename (List.filter is_file_entry l).
Proof.
  induction l as [|[n [mode c|]] l IH]; simpl; [reflexivity| |exact IH].
  by rewrite IH.
Qed.

(** [String.leb] is a preorder. *)
Lemma string_leb_refl s : String.leb s s = true.
Proof.
  destruct (String.leb_total s s); assumption.
Qed.

Lemma ascii_compare_lt a b : Ascii.compare a b = Lt -> (N_of_ascii a < N_of_ascii b)%N.
Proof. unfold Ascii.compare. apply N.compare_lt_iff. Qed.

Lemma string_leb_trans a b c :
  String.leb a b = true -> String.leb b c = true -> String.leb a c = true.
Proof.
  revert b c; induction a as [|x a IH]; intros [|y b] [|z c]; unfold String.leb;
    simpl; try discriminate; try reflexivity.
  destruct (Ascii.compare x y) eqn:Hxy; try discriminate;
  destruct (Ascii.compare y z) eqn:Hyz; try discriminate; intros H1 H2.
  - apply Ascii.compare_eq_iff in Hxy, Hyz; subst.
    assert (Ascii.compare z z = Eq) as -> by (unfold Ascii.compare; apply N.compare_refl).
    exact (IH b c H1 H2).
  - apply Ascii.compare_eq_iff in Hxy; subst. by rewrite Hyz.
  - apply Ascii.compare_eq_iff in Hyz; subst. by rewrite Hxy.
  - apply ascii_compare_lt in Hxy, Hyz.
    assert (Ascii.compare x z = Lt) as ->; [|reflexivity].
    unfold Ascii.compare. apply N.compare_lt_iff. lia.
Qed.

Lemma insert_by_name_perm e l : Permutation (insert_by_name e l) (e :: l).
Proof.
  induction l as [|x l IH]; simpl; [reflexivity|].
  destruct (String.leb (ename e) (ename x)); [reflexivity|].
  rewrite IH. apply perm_swap.
Qed.

Lemma sort_by_name_perm l : Permutation (sort_by_name l) l.
Proof.
  induction l as [|e l IH]; simpl; [reflexivity|].
  rewrite insert_by_name_perm. by constructor.
Qed.

Lemma insert_by_name_sorted e l :
  StronglySorted name_le l -> StronglySorted name_le (insert_by_name e l).
Proof.
  induction l as [|x l IH]; simpl; intros Hs.
  - repeat constructor.
  - inversion Hs as [|? ? Hl Hx]; subst.
    destruct (String.leb (ename e) (ename x)) eqn:Hex.
    + constructor; [exact Hs|]. constructor; [exact Hex|].
      eapply Forall_impl; [exact Hx|]. intros y Hy. unfold name_le in *.
      eapply string_leb_trans; eassumption.
    + constructor; [exact (IH Hl)|].
      apply List.Forall_forall. intros y Hy.
      apply (Permutation_in _ (insert_by_name_perm e l)) in Hy.
      destruct Hy as [<-|Hy].
      * unfold name_le. destruct (String.leb_total (ename e) (ename x)); congruence.
      * exact (proj1 (List.Forall_forall _ _) Hx y Hy).
Qed.

Lemma sort_by_name_sorted l : StronglySorted name_le (sort_by_name l).
Proof.
  induction l as [|e l IH]; simpl; [constructor|]. by apply insert_by_name_sorted.
Qed.

Lemma StronglySorted_filter {A} (R : A -> A -> Prop) (f : A -> bool) l :
  StronglySorted R l -> StronglySorted R (List.filter f l).
Proof.
  induction l as [|x l IH]; simpl; intros Hs; [constructor|].
  inversion Hs as [|? ? Hl Hx]; subst.
  destruct (f x); [|exact (IH Hl)].
  constructor; [exact (IH Hl)|].
  apply List.Forall_forall. intros y Hy. apply filter_In in Hy.
  exact (proj1 (List.Forall_forall _ _) Hx y (proj1 Hy)).
Qed.

Lemma StronglySorted_map_names l :
  StronglySorted name_le l ->
  StronglySorted (fun a b => String.leb a b = true) (map ename l).
Proof.
  induction l as [|x l IH]; simpl; intros Hs; [constructor|].
  inversion Hs as [|? ? Hl Hx]; subst. constructor; [exact (IH Hl)|].
  apply List.Forall_forall. intros y Hy. apply in_map_iff in Hy as [z [<- Hz]].
  exact (proj1 (List.Forall_forall _ _) Hx z Hz).
Qed.

Lemma NoDup_map_filter {A B} (g : A -> B) (f : A -> bool) l :
  List.NoDup (map g l) -> List.NoDup (map g (List.filter f l)).
Proof.
  induction l as [|x l IH]; simpl; intros Hn; [constructor|].
  inversion Hn as [|? ? Hx Hl]; subst.
  destruct (f x); simpl; [|exact (IH Hl)].
  constructor; [|exact (IH Hl)].
  intros Hin. apply Hx.
  apply in_map_iff in Hin as [z [Hz Hin]].
  apply filter_In in Hin. apply in_map_iff.
  exists z. split; [exact Hz|exact (proj1 Hin)].
Qed.

Lemma in_flat_map_sort {B} (f : entry -> list B) l r :
  In r (flat_map f (sort_by_name l)) <-> In r (flat_map f l).
Proof.
  rewrite !in_flat_map. split; intros [x [Hx Hr]]; exists x; split; auto.
  - exact (Permutation_in _ (sort_by_name_perm l) Hx).
  - exact (Permutation_in _ (Permutation_sym (sort_by_name_perm l)) Hx).
Qed.

(** [bool(mode & 0o222)]: 0o222 is 146, the write bits of owner (7),
    group (4) and others (1). *)
Lemma land_222_bits (mode : Z) :
  Z.land mode 146 <> 0%Z <->
  Z.testbit mode 7 = true \/ Z.testbit mode 4 = true \/ Z.testbit mode 1 = true.
Proof.
  split.
  - intros Hne.
    destruct (Z.testbit mode 7) eqn:H7; [by left|].
    destruct (Z.testbit mode 4) eqn:H4; [by right; left|].
    destruct (Z.testbit mode 1) eqn:H1; [by right; right|].
    exfalso. apply Hne. apply Z.bits_inj'. intros k Hk.
    rewrite Z.land_spec, Z.bits_0.
    destruct (Z.le_gt_cases 8 k) as [Hbig|Hsmall].
    + rewrite (Z.bits_above_log2 146 k); [apply andb_false_r|lia|].
      change (Z.log2 146) with 7%Z. lia.
    + assert (k = 0 \/ k = 1 \/ k = 2 \/ k = 3 \/ k = 4 \/ k = 5 \/ k = 6 \/ k = 7)%Z
        as Hk' by lia.
      destruct Hk' as [->|[->|[->|[->|[->|[->|[->| ->]]]]]]];
        rewrite ?H1, ?H4, ?H7, andb_comm; reflexivity.
  - intros Hbits Heq.
    assert (forall k, Z.testbit (Z.land mode 146) k = false) as Hz
      by (intros k; rewrite Heq; apply Z.bits_0).
    destruct Hbits as [H|[H|H]];
      [specialize (Hz 7%Z)|specialize (Hz 4%Z)|specialize (Hz 1%Z)];
      rewrite Z.land_spec, H in Hz; discriminate.
Qed.

(* ------------------------------------------------------------------ *)
(** ** The other two readers never raise *)

Lemma get_modinfo_details_ok w m : exists d, get_modinfo_details w m = inr d.
Proof.
  unfold get_modinfo_details. destruct (modinfo_run w m) as [[rc out]|]; simpl.
  - destruct (negb (Z.eqb rc 0)); simpl; eauto.
  - eauto.
Qed.

Lemma etc_file_eq m configs f :
  etc_file m configs f =
  inr (match snd f with
       | None => configs
       | Some text => fold_left (etc_line m (fst f)) (splitlines text) configs
       end).
Proof. destruct f as [n [t|]]; reflexivity. Qed.

Lemma etc_loop_ok m fs configs : exists c, etc_loop m fs configs = inr c.
Proof.
  revert configs; induction fs as [|f fs IH]; intros configs; simpl; [eauto|].
  rewrite etc_file_eq. simpl. apply IH.
Qed.

Lemma get_etc_configs_ok w m : exists c, get_etc_configs w m = inr c.
Proof.
  unfold get_etc_configs. destruct (modprobe_d w); [apply etc_loop_ok|eauto].
Qed.

(* ------------------------------------------------------------------ *)
(** ** The model builder *)

Lemma get_module_model_eq w m descs etc :
  get_modinfo_details w m = inr descs ->
  get_etc_configs w m = inr etc ->
  get_module_model w m =
  inr (mk_model m (map (merge_param descs etc)
         (match sys_param_dir w m with
          | None => []
          | Some es => flat_map (entry_record m) (sort_by_name es)
          end))).
Proof.
  intros Hd He. unfold get_module_model. rewrite Hd, He. simpl.
  by rewrite read_sysfs_params_eq.
Qed.

(** C5: [get_module_model] returns a model for every module name and every
    state of the three sources (no exception escapes it); when the
    parameter directory, the [modinfo] tool and [/etc/modprobe.d] are all
    absent, the model has no parameters. *)
Theorem get_module_model_total (w : World) (m : string) :
  (exists md, get_module_model w m = inr md /\ module md = m) /\
  (sys_param_dir w m = None -> modinfo_run w m = None -> modprobe_d w = None ->
   get_module_model w m = inr (mk_model m [])).
Proof.
  destruct (get_modinfo_details_ok w m) as [descs Hd].
  destruct (get_etc_configs_ok w m) as [etc He].
  rewrite (get_module_model_eq w m descs etc Hd He).
  split; [eexists; split; reflexivity|].
  intros Hs _ _. by rewrite Hs.
Qed.

(** C6: the record [read_sysfs_params] makes for a parameter file is
    writable iff [mode & 0o222] is nonzero, i.e. iff one of the write bits
    of owner, group or others is set, whatever the content of the file
    (readable or not). *)
Theorem read_sysfs_params_writable (w : World) (m : string) (es : list entry)
  (n : string) (mode : Z) (c : option string) :
  sys_param_dir w m = Some es ->
  In (mk_entry n (EFile mode c)) es ->
  exists ps r, read_sysfs_params w m = inr ps /\ In r ps /\
    p_name r = n /\ p_path r = param_path m n /\
    (p_writable r = true <-> Z.land mode 146 <> 0%Z) /\
    (p_writable r = true <->
     Z.testbit mode 7 = true \/ Z.testbit mode 4 = true \/ Z.testbit mode 1 = true).
Proof.
  intros Hdir Hin. rewrite read_sysfs_params_eq, Hdir.
  eexists _, (mk_param n _ (is_globally_writable mode) (param_path m n)).
  split; [reflexivity|]. split.
  { apply in_flat_map_sort, in_flat_map. exists (mk_entry n (EFile mode c)).
    split; [exact Hin|]. simpl. left. reflexivity. }
  simpl. split; [reflexivity|]. split; [reflexivity|].
  assert (Hw : is_globally_writable mode = true <-> Z.land mode 146 <> 0%Z).
  { unfold is_globally_writable.
    destruct (Z.eqb_spec (Z.land mode 146) 0); simpl; split; congruence. }
  split; [exact Hw|]. rewrite Hw. apply land_222_bits.
Qed.

(** C7: a parameter file whose read raises still gets a record, with the
    value [<Unreadable>] and [writable] computed from its mode; every other
    record is the same as when that read succeeds. *)
Theorem read_sysfs_params_unreadable (w : World) (m : string)
  (es1 es2 : list entry) (n : string) (mode : Z) :
  sys_param_dir w m = Some (es1 ++ mk_entry n (EFile mode None) :: es2)%list ->
  exists ps, read_sysfs_params w m = inr ps /\
    In (mk_param n UNREADABLE (is_globally_writable mode) (param_path m n)) ps /\
    (forall (w' : World) (c : option string),
       sys_param_dir w' m = Some (es1 ++ mk_entry n (EFile mode c) :: es2)%list ->
       exists ps', read_sysfs_params w' m = inr ps' /\
         forall r, p_name r <> n -> (In r ps <-> In r ps')).
Proof.
  intros Hdir. rewrite read_sysfs_params_eq, Hdir.
  eexists. split; [reflexivity|]. split.
  { apply in_flat_map_sort, in_flat_map. eexists. split.
    - apply in_or_app. right. left. reflexivity.
    - simpl. left. reflexivity. }
  intros w' c Hdir'. rewrite read_sysfs_params_eq, Hdir'.
  eexists. split; [reflexivity|]. intros r Hr.
  rewrite !in_flat_map_sort, !flat_map_app, !in_app_iff. simpl.
  split; intros [H|[H|H]]; auto; exfalso; subst r; apply Hr; reflexivity.
Qed.

(** C1: the model lists exactly the regular files of the module's
    parameter directory, one record each, sorted by name (a name known only
    to [modinfo] or to [/etc/modprobe.d] gives no record); each record's
    description is the [modinfo] entry for its name, or [No description
    available.], and its persisted overrides are the [get_etc_configs] list
    for its name, or the empty list.  Directory entries have distinct
    names. *)
Theorem get_module_model_merge (w : World) (m : string) (md : module_model)
  (descs : gmap string string) (etc : gmap string (list override)) :
  (forall es, sys_param_dir w m = Some es -> List.NoDup (map ename es)) ->
  get_module_model w m = inr md ->
  get_modinfo_details w m = inr descs ->
  get_etc_configs w m = inr etc ->
  module md = m /\
  Sorted (fun a b => String.leb a b = true) (map name (params md)) /\
  List.NoDup (map name (params md)) /\
  (forall n, In n (map name (params md)) <->
     exists es mode c, sys_param_dir w m = Some es /\ In (mk_entry n (EFile mode c)) es) /\
  (forall r, In r (params md) ->
     desc r = default NO_DESC (descs !! name r) /\
     persistent r = default [] (etc !! name r)).
Proof.
  intros Hnd Hmd Hd He.
  rewrite (get_module_model_eq w m descs etc Hd He) in Hmd.
  injection Hmd as <-. simpl.
  assert (Hnames : forall ps, map name (map (merge_param descs etc) ps) = map p_name ps)
    by (intros ps; rewrite map_map; reflexivity).
  rewrite Hnames. split; [reflexivity|].
  split; [|split; [|split]].
  - destruct (sys_param_dir w m) as [es|]; [|constructor].
    rewrite names_entry_records. apply StronglySorted_Sorted.
    apply StronglySorted_map_names, StronglySorted_filter, sort_by_name_sorted.
  - destruct (sys_param_dir w m) as [es|] eqn:Hdir; [|constructor].
    rewrite names_entry_records. apply NoDup_map_filter.
    apply (Permutation_NoDup (Permutation_map ename (Permutation_sym (sort_by_name_perm es)))).
    exact (Hnd es eq_refl).
  - intros n. destruct (sys_param_dir w m) as [es|]; simpl.
    + rewrite names_entry_records, in_map_iff. split.
      * intros [[x k] [Hx Hin]]. simpl in Hx. subst x.
        apply filter_In in Hin as [Hin Hf].
        apply (Permutation_in _ (sort_by_name_perm es)) in Hin.
        destruct k as [mode c|]; [|discriminate]. eauto.
      * intros (es' & mode & c & Hes & Hin). injection Hes as <-.
        exists (mk_entry n (EFile mode c)). split; [reflexivity|].
        apply filter_In. split; [|reflexivity].
        exact (Permutation_in _ (Permutation_sym (sort_by_name_perm es)) Hin).
    + split; [intros []|]. intros (es & mode & c & Hes & _). discriminate.
  - intros r Hr. apply in_map_iff in Hr as [p [<- _]]. simpl. split; reflexivity.
Qed.

(* ------------------------------------------------------------------ *)
(** ** The persisted configuration reader *)

Lemma for_key_app k l1 l2 : for_key k (l1 ++ l2)%list = (for_key k l1 ++ for_key k l2)%list.
Proof. unfold for_key. by rewrite List.filter_app, map_app. Qed.

Lemma etc_part_lookup fname line (cfg : gmap string (list override)) tok k :
  default [] (etc_part fname line cfg tok !! k) =
  (default [] (cfg !! k) ++ for_key k (token_override fname line tok))%list.
Proof.
  unfold etc_part, token_override.
  destruct (partition_at "=" tok) as [[k' v]|]; simpl.
  - unfold for_key; simpl. destruct (String.eqb_spec k' k) as [<-|Hne]; simpl.
    + by rewrite lookup_insert_eq.
    + rewrite lookup_insert_ne by congruence. by rewrite app_nil_r.
  - by rewrite app_nil_r.
Qed.

Lemma etc_parts_lookup fname line toks (cfg : gmap string (list override)) k :
  default [] (fold_left (etc_part fname line) toks cfg !! k) =
  (default [] (cfg !! k) ++ for_key k (flat_map (token_override fname line) toks))%list.
Proof.
  revert cfg; induction toks as [|t toks IH]; intros cfg; simpl.
  - by rewrite app_nil_r.
  - rewrite IH, etc_part_lookup, for_key_app. by rewrite app_assoc.
Qed.

Lemma etc_line_lookup m fname (cfg : gmap string (list override)) raw k :
  default [] (etc_line m fname cfg raw !! k) =
  (default [] (cfg !! k) ++ for_key k (line_directives m fname raw))%list.
Proof.
  unfold etc_line, line_directives.
  destruct (String.eqb (strip raw) "" || String.prefix "#" (strip raw)) eqn:Hskip.
  - apply orb_true_iff in Hskip.
    destruct Hskip as [H|H]; rewrite H; simpl;
      rewrite ?andb_false_r; by rewrite app_nil_r.
  - apply orb_false_iff in Hskip as [H1 H2]. rewrite H1, H2. cbn [negb andb].
    destruct ((3 <=? List.length (split_ws (strip raw)))%nat
              && String.eqb (nth 0 (split_ws (strip raw)) "") "options"
              && String.eqb (nth 1 (split_ws (strip raw)) "") m); simpl.
    + apply etc_parts_lookup.
    + by rewrite app_nil_r.
Qed.

Lemma etc_lines_lookup m fname lines (cfg : gmap string (list override)) k :
  default [] (fold_left (etc_line m fname) lines cfg !! k) =
  (default [] (cfg !! k) ++ for_key k (flat_map (line_directives m fname) lines))%list.
Proof.
  revert cfg; induction lines as [|l lines IH]; intros cfg; simpl.
  - by rewrite app_nil_r.
  - rewrite IH, etc_line_lookup, for_key_app. by rewrite app_assoc.
Qed.

Lemma etc_loop_lookup m fs (cfg cfg' : gmap string (list override)) k :
  etc_loop m fs cfg = inr cfg' ->
  default [] (cfg' !! k) =
  (default [] (cfg !! k) ++ for_key k (flat_map (file_directives m) fs))%list.
Proof.
  revert cfg; induction fs as [|f fs IH]; intros cfg; simpl.
  - intros H. injection H as <-. by rewrite app_nil_r.
  - rewrite etc_file_eq. simpl. intros H. rewrite (IH _ H), for_key_app, app_assoc.
    f_equal. unfold file_directives. destruct (snd f) as [text|]; simpl.
    + apply etc_lines_lookup.
    + by rewrite app_nil_r.
Qed.

(** C8: for every key, the list [get_etc_configs] maps it to (the empty
    list when absent) is the list of overrides the claim describes:
    [*.conf] files in glob order, lines in file order, tokens in line
    order, only non-blank, non-comment lines of at least three tokens
    starting with [options] and the exact module name, only tokens with
    [=] (value after the first [=], the file's name, the trimmed line);
    a file whose read raises contributes nothing and changes nothing for
    the other files. *)
Theorem get_etc_configs_directives (w : World) (m : string) :
  exists cfg, get_etc_configs w m = inr cfg /\
  forall k, default [] (cfg !! k) =
            match modprobe_d w with
            | None => []
            | Some fs => etc_configs_claim m fs k
            end.
Proof.
  unfold get_etc_configs. destruct (modprobe_d w) as [fs|].
  - destruct (etc_loop_ok m fs ∅) as [cfg Hcfg]. exists cfg. split; [exact Hcfg|].
    intros k. rewrite (etc_loop_lookup m fs ∅ cfg k Hcfg).
    by rewrite lookup_empty.
  - exists ∅. split; [reflexivity|]. intros k. by rewrite lookup_empty.
Qed.

(* ------------------------------------------------------------------ *)
(** ** The filter: blank queries and the threshold *)

Lemma strip_all_space (s : string) :
  (forall c, In c (list_ascii_of_string s) -> is_space c = true) -> strip s = "".
Proof.
  unfold strip. induction s as [|c s IH]; simpl; intros H; [reflexivity|].
  rewrite (H c (or_introl eq_refl)). apply IH. intros d Hd. apply H. by right.
Qed.

(** C9: a search text that is empty or all whitespace leaves the module
    list as it is. *)
Theorem on_input_changed_blank (raw_score : string -> string -> Q)
  (value : string) (M : list string) :
  (forall c, In c (list_ascii_of_string value) -> is_space c = true) ->
  on_input_changed raw_score value M = M.
Proof.
  intros H. unfold on_input_changed. by rewrite (strip_all_space value H).
Qed.

(** C10: the query is the stripped search text, and the threshold is
    chosen on its length: a stripped query of one character is ranked
    with threshold 50, however long the raw text. *)
Theorem on_input_changed_strip_threshold (raw_score : string -> string -> Q)
  (value : string) (M : list string) :
  String.length (strip value) = 1%nat ->
  on_input_changed raw_score value M =
  select 50 (extract raw_score (strip value) M 200).
Proof.
  intros Hlen. unfold on_input_changed, threshold.
  destruct (strip value) as [|c [|d r]]; simpl in Hlen; try discriminate.
  reflexivity.
Qed.

(* ------------------------------------------------------------------ *)
(** ** The filter: ranking *)

Lemma py_round_cases (x : Q) :
  let f := Qfloor x in
  let d := (x - inject_Z f)%Q in
  (py_round x = f /\ (d <= 1#2)%Q /\ ((d == 1#2)%Q -> Z.even f = true)) \/
  (py_round x = (f + 1)%Z /\ (1#2 <= d)%Q /\ ((d == 1#2)%Q -> Z.even f = false)).
Proof.
  cbv zeta. unfold py_round.
  destruct (Qeq_bool (x - inject_Z (Qfloor x)) (1#2)) eqn:E.
  - apply Qeq_bool_iff in E.
    destruct (Z.even (Qfloor x)) eqn:Ev.
    + left. split; [reflexivity|split; [lra|auto]].
    + right. split; [reflexivity|split; [lra|auto]].
  - destruct (Qle_bool (x - inject_Z (Qfloor x)) (1#2)) eqn:L.
    + apply Qle_bool_iff in L. left. repeat split; [exact L|].
      intros Heq. apply Qeq_bool_iff in Heq. congruence.
    + right. split; [reflexivity|]. split.
      * apply Qlt_le_weak, Qnot_le_lt. intros Hle. apply Qle_bool_iff in Hle. congruence.
      * intros Heq. apply Qeq_bool_iff in Heq. congruence.
Qed.

(** Rounding keeps the order of the raw scores. *)
Lemma py_round_mono (x y : Q) : (x <= y)%Q -> (py_round x <= py_round y)%Z.
Proof.
  intros Hxy. pose proof (Qfloor_resp_le x y Hxy) as Hf.
  destruct (py_round_cases x) as [[Ex [Lx Tx]]|[Ex [Lx Tx]]];
  destruct (py_round_cases y) as [[Ey [Ly Ty]]|[Ey [Ly Ty]]];
    rewrite Ex, Ey; try lia.
  destruct (Z.eq_dec (Qfloor x) (Qfloor y)) as [Heq|Hne]; [exfalso|lia].
  rewrite Heq in Lx, Tx.
  assert (Hd : (y - inject_Z (Qfloor y) == 1#2)%Q) by lra.
  assert (Hd' : (x - inject_Z (Qfloor y) == 1#2)%Q) by lra.
  specialize (Ty Hd). specialize (Tx Hd'). congruence.
Qed.

Lemma insert_desc_perm x l : Permutation (insert_desc x l) (x :: l).
Proof.
  induction l as [|y l IH]; simpl; [reflexivity|].
  destruct (Qle_bool (snd y) (snd x)); [reflexivity|].
  rewrite IH. apply perm_swap.
Qed.

Lemma sort_desc_perm l : Permutation (sort_desc l) l.
Proof.
  induction l as [|x l IH]; simpl; [reflexivity|].
  rewrite insert_desc_perm. by constructor.
Qed.

Lemma insert_desc_sorted x l :
  StronglySorted desc_le l -> StronglySorted desc_le (insert_desc x l).
Proof.
  induction l as [|y l IH]; simpl; intros Hs.
  - repeat constructor.
  - inversion Hs as [|? ? Hl Hy]; subst.
    destruct (Qle_bool (snd y) (snd x)) eqn:Hxy.
    + apply Qle_bool_iff in Hxy.
      constructor; [exact Hs|]. constructor; [exact Hxy|].
      eapply Forall_impl; [exact Hy|]. intros z Hz. unfold desc_le in *.
      eapply Qle_trans; eassumption.
    + constructor; [exact (IH Hl)|].
      apply List.Forall_forall. intros z Hz.
      apply (Permutation_in _ (insert_desc_perm x l)) in Hz.
      destruct Hz as [<-|Hz].
      * unfold desc_le. apply Qlt_le_weak, Qnot_le_lt.
        intros H. apply Qle_bool_iff in H. congruence.
      * exact (proj1 (List.Forall_forall _ _) Hy z Hz).
Qed.

Lemma sort_desc_sorted l : StronglySorted desc_le (sort_desc l).
Proof.
  induction l as [|x l IH]; simpl; [constructor|]. by apply insert_desc_sorted.
Qed.

Lemma StronglySorted_app_l {A} (R : A -> A -> Prop) l1 l2 :
  StronglySorted R (l1 ++ l2)%list -> StronglySorted R l1.
Proof.
  induction l1 as [|x l1 IH]; simpl; intros Hs; [constructor|].
  inversion Hs as [|? ? Hl Hx]; subst. constructor; [exact (IH Hl)|].
  apply List.Forall_forall. intros y Hy.
  apply (proj1 (List.Forall_forall _ _) Hx). apply in_or_app. by left.
Qed.

Lemma StronglySorted_app_between {A} (R : A -> A -> Prop) l1 l2 x y :
  StronglySorted R (l1 ++ l2)%list -> In x l1 -> In y l2 -> R x y.
Proof.
  induction l1 as [|z l1 IH]; simpl; intros Hs Hx Hy; [contradiction|].
  inversion Hs as [|? ? Hl Hz]; subst. destruct Hx as [<-|Hx].
  - apply (proj1 (List.Forall_forall _ _) Hz). apply in_or_app. by right.
  - exact (IH Hl Hx Hy).
Qed.

Lemma StronglySorted_map {A B} (R : A -> A -> Prop) (S : B -> B -> Prop) (g : A -> B) l :
  (forall a b, In a l -> In b l -> R a b -> S (g a) (g b)) ->
  StronglySorted R l -> StronglySorted S (map g l).
Proof.
  induction l as [|x l IH]; simpl; intros Hg Hs; [constructor|].
  inversion Hs as [|? ? Hl Hx]; subst. constructor.
  - apply IH; [|exact Hl]. intros a b Ha Hb. apply Hg; by right.
  - apply List.Forall_forall. intros y Hy. apply in_map_iff in Hy as [z [<- Hz]].
    apply Hg; [by left|by right|]. exact (proj1 (List.Forall_forall _ _) Hx z Hz).
Qed.

Lemma existsb_filter_nil {A} (f : A -> bool) l :
  existsb f l = false -> List.filter f l = [].
Proof.
  induction l as [|x l IH]; simpl; [reflexivity|].
  intros H. apply orb_false_iff in H as [Hx Hl]. rewrite Hx. exact (IH Hl).
Qed.

Lemma existsb_filter_cons {A} (f : A -> bool) l :
  existsb f l = true -> List.filter f l <> [].
Proof.
  intros H. apply existsb_exists in H as [x [Hx Hfx]].
  intros Hnil. assert (In x (List.filter f l)) as Hin by (apply filter_In; auto).
  rewrite Hnil in Hin. contradiction.
Qed.

Lemma In_firstn_l {A} (n : nat) (l : list A) x : In x (firstn n l) -> In x l.
Proof.
  intros H. rewrite <- (firstn_skipn n l). apply in_or_app. by left.
Qed.

Lemma In_skipn_l {A} (n : nat) (l : list A) x : In x (skipn n l) -> In x l.
Proof.
  intros H. rewrite <- (firstn_skipn n l). apply in_or_app. by right.
Qed.

(** C4: for a search text whose stripped form [q] is not empty, the
    library's [results] are the (at most) 200 best-scoring module names
    ([min(len M, 200)] of them, in descending order of score, none of the
    names left out scoring higher than one kept); the new list is the
    names of [results] scoring at least the threshold (65 when [q] has two
    characters or more, 50 otherwise), in that order, or, when there is
    none, the first 20 names of [results]; it is ordered by descending
    score, it is not empty when [M] is not, and every name in it is in
    [M]. *)
Theorem on_input_changed_ranked (raw_score : string -> string -> Q)
  (value : string) (M : list string) :
  strip value <> "" ->
  let q := strip value in
  let results := extract raw_score q M 200 in
  let out := on_input_changed raw_score value M in
  List.length results = Nat.min (List.length M) 200 /\
  (forall r, In r results -> snd r = score raw_score q (fst r)) /\
  Sorted (fun a b => (snd b <= snd a)%Z) results /\
  (exists rest, Permutation (map fst results ++ rest)%list M /\
     forall r y, In r results -> In y rest -> (score raw_score q y <= snd r)%Z) /\
  out = (if existsb (fun r => Z.leb (threshold q) (snd r)) results
         then map fst (List.filter (fun r => Z.leb (threshold q) (snd r)) results)
         else map fst (firstn 20 results)) /\
  threshold q = (if (2 <=? String.length q)%nat then 65 else 50)%Z /\
  Sorted (fun a b => (b <= a)%Z) (map (score raw_score q) out) /\
  (M <> [] -> out <> []) /\
  (forall n, In n out -> In n M).
Proof.
  intros Hq. cbv zeta.
  set (q := strip value) in *.
  set (S := sort_desc (map (fun c => (c, raw_score q c)) M)).
  set (rnd := fun r : string * Q => (fst r, py_round (snd r))).
  set (results := extract raw_score q M 200).
  assert (Hext : results = map rnd (firstn 200 S)) by reflexivity.
  assert (HSperm : Permutation S (map (fun c => (c, raw_score q c)) M))
    by apply sort_desc_perm.
  assert (HSs : StronglySorted desc_le S) by apply sort_desc_sorted.
  assert (HSin : forall x, In x S -> snd x = raw_score q (fst x)).
  { intros x Hx. apply (Permutation_in _ HSperm), in_map_iff in Hx as [c [<- _]].
    reflexivity. }
  assert (HSfst : Permutation (map fst S) M).
  { rewrite (Permutation_map fst HSperm), map_map. simpl. by rewrite map_id. }
  assert (Hrin : forall r, In r results ->
            exists x, In x (firstn 200 S) /\ r = rnd x /\
                      snd r = score raw_score q (fst r)).
  { intros r Hr. rewrite Hext in Hr. apply in_map_iff in Hr as [x [<- Hx]].
    exists x. split; [exact Hx|]. split; [reflexivity|].
    unfold score. simpl. by rewrite (HSin x (In_firstn_l _ _ _ Hx)). }
  assert (Hscore : forall r, In r results -> snd r = score raw_score q (fst r))
    by (intros r Hr; destruct (Hrin r Hr) as (x & _ & _ & H); exact H).
  assert (Hrs : StronglySorted (fun a b => (snd b <= snd a)%Z) results).
  { rewrite Hext. apply StronglySorted_map with (R := desc_le).
    - intros a b _ _ Hab. simpl. by apply py_round_mono.
    - apply (StronglySorted_app_l _ _ (skipn 200 S)). by rewrite firstn_skipn. }
  assert (Hfst : map fst results = map fst (firstn 200 S))
    by (rewrite Hext, map_map; reflexivity).
  assert (Hperm : Permutation (map fst results ++ map fst (skipn 200 S))%list M)
    by (rewrite Hfst, <- map_app, firstn_skipn; exact HSfst).
  assert (Hout : on_input_changed raw_score value M =
           if existsb (fun r => Z.leb (threshold q) (snd r)) results
           then map fst (List.filter (fun r => Z.leb (threshold q) (snd r)) results)
           else map fst (firstn 20 results)).
  { unfold on_input_changed. fold q.
    destruct (String.eqb_spec q ""); [contradiction|]. fold results.
    unfold select. destruct (existsb _ results) eqn:E.
    - apply existsb_filter_cons in E.
      destruct (map fst (List.filter _ results)) eqn:Hm; [|reflexivity].
      apply map_eq_nil in Hm. contradiction.
    - by rewrite (existsb_filter_nil _ _ E). }
  assert (Hsub : forall L, (forall r, In r L -> In r results) ->
            StronglySorted (fun a b => (snd b <= snd a)%Z) L ->
            Sorted (fun a b => (b <= a)%Z) (map (score raw_score q) (map fst L))).
  { intros L HL HsL. rewrite map_map. apply StronglySorted_Sorted.
    apply StronglySorted_map with (R := fun a b => (snd b <= snd a)%Z); [|exact HsL].
    intros a b Ha Hb Hab. rewrite <- (Hscore a (HL a Ha)), <- (Hscore b (HL b Hb)).
    exact Hab. }
  assert (Houtsub : exists L, (forall r, In r L -> In r results) /\
            StronglySorted (fun a b => (snd b <= snd a)%Z) L /\
            on_input_changed raw_score value M = map fst L).
  { rewrite Hout. destruct (existsb _ results).
    - eexists. split; [|split; [|reflexivity]].
      + intros r Hr. apply filter_In in Hr. exact (proj1 Hr).
      + by apply StronglySorted_filter.
    - eexists. split; [|split; [|reflexivity]].
      + apply In_firstn_l.
      + apply (StronglySorted_app_l _ _ (skipn 20 results)). by rewrite firstn_skipn. }
  destruct Houtsub as (L & HL & HsL & HoutL).
  split; [|split; [exact Hscore|split; [|split; [|split; [exact Hout|split;
    [reflexivity|split; [|split]]]]]]].
  - rewrite Hext, length_map, length_firstn, (Permutation_length HSperm), length_map.
    lia.
  - by apply StronglySorted_Sorted.
  - exists (map fst (skipn 200 S)). split; [exact Hperm|].
    intros r y Hr Hy. destruct (Hrin r Hr) as (x & Hx & -> & _).
    apply in_map_iff in Hy as [z [<- Hz]].
    unfold score. simpl. rewrite <- (HSin z (In_skipn_l _ _ _ Hz)).
    apply py_round_mono.
    apply (StronglySorted_app_between desc_le (firstn 200 S) (skipn 200 S));
      [by rewrite firstn_skipn|exact Hx|exact Hz].
  - rewrite HoutL. exact (Hsub L HL HsL).
  - intros HM. rewrite Hout.
    assert (Hne : results <> []).
    { intros Hnil. destruct M as [|c M']; [by apply HM|].
      assert (List.length results = 0%nat) as H0 by (rewrite Hnil; reflexivity).
      rewrite Hext, length_map, length_firstn, (Permutation_length HSperm) in H0.
      simpl in H0. discriminate. }
    destruct (existsb _ results) eqn:E.
    + apply existsb_filter_cons in E. intros Hm. apply map_eq_nil in Hm. contradiction.
    + destruct results as [|r rs]; [contradiction|]. simpl. discriminate.
  - intros n Hn. rewrite HoutL in Hn. apply in_map_iff in Hn as [r [<- Hr]].
    apply (Permutation_in _ Hperm). apply in_or_app. left.
    apply in_map. exact (HL r Hr).
Qed.

(* ------------------------------------------------------------------ *)
(** ** The edit workflow *)

Section WorkflowProps.

Variable write_text : World -> string -> string -> World * option string.

Lemma load_details_keeps s m s' :
  load_details s m = inr s' ->
  u_prompt s' = u_prompt s /\ u_writes s' = u_writes s /\ u_world s' = u_world s.
Proof.
  unfold load_details. destruct (get_module_model (u_world s) m); simpl.
  - discriminate.
  - intros H. injection H as <-. auto.
Qed.

Lemma check_edit_keeps p v s :
  u_prompt (check_edit write_text p v s) = u_prompt s /\
  (forall q v', In (q, v') (u_writes (check_edit write_text p v s)) ->
     In (q, v') (u_writes s) \/ q = p).
Proof.
  unfold check_edit. destruct v as [v|]; [|auto].
  destruct (write_text (u_world s) (path p) v) as [w' [e|]].
  - simpl. split; [reflexivity|]. intros q v' H.
    apply in_app_iff in H as [H|[H|[]]]; [by left|]. injection H as -> ->. by right.
  - assert (Hw : forall q v', In (q, v') (u_writes s ++ [(p, v)])%list ->
                   In (q, v') (u_writes s) \/ q = p).
    { intros q v' H. apply in_app_iff in H as [H|[H|[]]]; [by left|].
      injection H as -> ->. by right. }
    cbn [notify u_model u_prompt u_writes].
    destruct (u_model s) as [md|]; simpl; [|auto].
    destruct (load_details _ (module md)) as [e|s3] eqn:Hl; simpl; [auto|].
    apply load_details_keeps in Hl as (Hp & Hws & _). simpl in Hp, Hws.
    rewrite Hp, Hws. auto.
Qed.

Lemma notify_inv s sev msg : edit_inv s -> edit_inv (notify s sev msg).
Proof. intros [Hp Hw]. split; simpl; assumption. Qed.

Lemma step_inv s ev : edit_inv s -> edit_inv (step write_text s ev).
Proof.
  intros Hinv. destruct ev as [|v|m|i]; simpl.
  - unfold action_edit_parameter.
    destruct (u_prompt s) as [q|] eqn:Hps; [by apply notify_inv|].
    destruct (u_index s) as [i|]; [|by apply notify_inv].
    destruct (nth_error (param_children s) i) as [q|]; [|by apply notify_inv].
    destruct (writable q) eqn:Hq; simpl; [|by apply notify_inv].
    split; simpl; [|exact (proj2 Hinv)]. intros q' H. by injection H as <-.
  - destruct (u_prompt s) as [q|] eqn:Hps; [|exact Hinv].
    pose proof (proj1 Hinv q Hps) as Hq.
    destruct (check_edit_keeps q v (set_prompt s None)) as [Hp' Hw'].
    split.
    + intros q' H. rewrite Hp' in H. discriminate.
    + intros q' v' H. destruct (Hw' q' v' H) as [H' | ->]; [|exact Hq].
      exact (proj2 Hinv q' v' H').
  - destruct (u_prompt s) as [q|] eqn:Hps; [exact Hinv|].
    destruct (load_details s m) as [e|s'] eqn:Hl; [exact Hinv|].
    apply load_details_keeps in Hl as (Hp' & Hw' & _).
    split; [rewrite Hp'; exact (proj1 Hinv)|rewrite Hw'; exact (proj2 Hinv)].
  - destruct (u_prompt s) as [q|] eqn:Hps; [exact Hinv|].
    split; simpl; [exact (proj1 Hinv)|exact (proj2 Hinv)].
Qed.

Lemma run_inv s evs : edit_inv s -> edit_inv (run write_text s evs).
Proof.
  unfold run. revert s; induction evs as [|ev evs IH]; intros s Hs; simpl;
    [exact Hs|]. apply IH. by apply step_inv.
Qed.

End WorkflowProps.

(** C3: on a parameter whose record has [writable = false], the edit
    action only adds the warning [Parameter <name> is not writable at
    runtime]: no modal opens, nothing is written and the world is
    unchanged; and in every run of the application from a state with no
    modal open and no write made, that record is never written. *)
Theorem edit_not_writable_rejected
  (write_text : World -> string -> string -> World * option string)
  (s : ui) (i : nat) (p : mparam) :
  u_prompt s = None ->
  u_index s = Some i ->
  nth_error (param_children s) i = Some p ->
  writable p = false ->
  step write_text s EvEdit = notify s Warning (warn_not_writable (name p)) /\
  u_prompt (step write_text s EvEdit) = None /\
  u_writes (step write_text s EvEdit) = u_writes s /\
  u_world (step write_text s EvEdit) = u_world s /\
  (forall (s0 : ui) (evs : list event) (v : string),
     u_prompt s0 = None -> u_writes s0 = [] ->
     ~ In (p, v) (u_writes (run write_text s0 evs))).
Proof.
  intros Hp Hi Hn Hw.
  assert (Hstep : step write_text s EvEdit = notify s Warning (warn_not_writable (name p))).
  { simpl. unfold action_edit_parameter. by rewrite Hp, Hi, Hn, Hw. }
  rewrite Hstep. split; [reflexivity|]. split; [exact Hp|].
  split; [reflexivity|]. split; [reflexivity|].
  intros s0 evs v Hp0 Hw0 Hin.
  assert (Hinv0 : edit_inv s0).
  { split; [by rewrite Hp0|]. rewrite Hw0. intros q v' [] . }
  pose proof (proj2 (run_inv write_text s0 evs Hinv0) p v Hin) as H.
  congruence.
Qed.

(** C2: when the modal closes on the record [p]: on Cancel nothing but the
    modal changes; when the write raises [e], the model stays and the
    error [Error: <e>] is added; when it succeeds, [Updated: <name> =
    <value>] is added and the model is rebuilt by [get_module_model] for
    the displayed module from the world after the write. *)
Theorem check_edit_outcomes
  (write_text : World -> string -> string -> World * option string)
  (s : ui) (p : mparam) :
  u_prompt s = Some p ->
  (let s' := step write_text s (EvClose None) in
   u_model s' = u_model s /\ u_notes s' = u_notes s /\ u_world s' = u_world s /\
   u_writes s' = u_writes s /\ u_prompt s' = None) /\
  (forall v w' e, write_text (u_world s) (path p) v = (w', Some e) ->
   let s' := step write_text s (EvClose (Some v)) in
   u_model s' = u_model s /\ u_prompt s' = None /\
   u_notes s' = (u_notes s ++ [(Error, err_write e)])%list) /\
  (forall v w' md, u_model s = Some md ->
   write_text (u_world s) (path p) v = (w', None) ->
   let s' := step write_text s (EvClose (Some v)) in
   exists md', get_module_model w' (module md) = inr md' /\
     u_model s' = Some md' /\ u_world s' = w' /\ u_prompt s' = None /\
     u_notes s' = (u_notes s ++ [(Information, ok_updated (name p) v)])%list).
Proof.
  intros Hp. cbv zeta. simpl. rewrite Hp.
  split; [repeat split; reflexivity|split].
  - intros v w' e Hw. unfold check_edit. simpl. rewrite Hw. simpl.
    repeat split; reflexivity.
  - intros v w' md Hmd Hw. unfold check_edit. simpl. rewrite Hw, Hmd. simpl.
    destruct (get_module_model_total w' (module md)) as [[md' [Hg _]] _].
    exists md'. split; [exact Hg|].
    unfold load_details. simpl. rewrite Hg. simpl.
    repeat split; reflexivity.
Qed.

(* ------------------------------------------------------------------ *)
(** ** Scenarios *)

(** [a.conf] holding [options e1000e InterruptThrottleRate=3000]. *)
Example etc_configs_scenario :
  get_etc_configs
    (mk_world (fun _ => None) (fun _ => None)
       (Some [("a.conf", Some "options e1000e InterruptThrottleRate=3000")]))
    "e1000e"
  = inr (<["InterruptThrottleRate" :=
            [mk_override "3000" "a.conf" "options e1000e InterruptThrottleRate=3000"]]> ∅).
Proof. vm_compute. reflexivity. Qed.

(** With a similarity that favours prefixes, [e10] keeps [e1000e] and
    [e1000] and drops [ext4]. *)
Example filter_scenario :
  on_input_changed prefix_score "e10" ["e1000e"; "e1000"; "ext4"] = ["e1000e"; "e1000"].
Proof. vm_compute. reflexivity. Qed.

(** An unreadable, read-only parameter and a readable, writable one. *)
Example read_sysfs_params_scenario :
  read_sysfs_params sample_world "e1000e" =
  inr [mk_param "a" UNREADABLE false "/sys/module/e1000e/parameters/a";
       mk_param "b" "5" true "/sys/module/e1000e/parameters/b"].
Proof. vm_compute. reflexivity. Qed.

(* ------------------------------------------------------------------ *)
(** ** The statements at concrete inputs *)

Lemma get_module_model_merge_witness :
  (forall es, sys_param_dir sample_world "e1000e" = Some es -> List.NoDup (map ename es)) /\
  get_module_model sample_world "e1000e" = inr sample_model /\
  get_modinfo_details sample_world "e1000e" = inr sample_descs /\
  get_etc_configs sample_world "e1000e" = inr sample_etc /\
  (module sample_model = "e1000e" /\
   Sorted (fun a b => String.leb a b = true) (map name (params sample_model)) /\
   List.NoDup (map name (params sample_model)) /\
   (forall n, In n (map name (params sample_model)) <->
      exists es mode c, sys_param_dir sample_world "e1000e" = Some es /\
                        In (mk_entry n (EFile mode c)) es) /\
   (forall r, In r (params sample_model) ->
      desc r = default NO_DESC (sample_descs !! name r) /\
      persistent r = default [] (sample_etc !! name r))).
Proof.
  assert (Hnd : forall es, sys_param_dir sample_world "e1000e" = Some es ->
                           List.NoDup (map ename es)).
  { intros es H. cbn in H. injection H as <-. simpl.
    repeat constructor; simpl; intuition discriminate. }
  assert (Hm : get_module_model sample_world "e1000e" = inr sample_model)
    by (vm_compute; reflexivity).
  assert (Hd : get_modinfo_details sample_world "e1000e" = inr sample_descs)
    by (vm_compute; reflexivity).
  assert (He : get_etc_configs sample_world "e1000e" = inr sample_etc)
    by (vm_compute; reflexivity).
  split; [exact Hnd|split; [exact Hm|split; [exact Hd|split; [exact He|]]]].
  exact (get_module_model_merge sample_world "e1000e" sample_model sample_descs
           sample_etc Hnd Hm Hd He).
Defined.

Lemma get_module_model_total_witness :
  sys_param_dir empty_world "e1000e" = None /\
  modinfo_run empty_world "e1000e" = None /\
  modprobe_d empty_world = None /\
  get_module_model empty_world "e1000e" = inr (mk_model "e1000e" []).
Proof.
  split; [reflexivity|split; [reflexivity|split; [reflexivity|]]].
  exact (proj2 (get_module_model_total empty_world "e1000e") eq_refl eq_refl eq_refl).
Defined.

Lemma read_sysfs_params_writable_witness :
  sys_param_dir sample_world "e1000e" = Some sample_entries /\
  In (mk_entry "a" (EFile 292 None)) sample_entries /\
  (exists ps r, read_sysfs_params sample_world "e1000e" = inr ps /\ In r ps /\
    p_name r = "a" /\ p_path r = param_path "e1000e" "a" /\
    (p_writable r = true <-> Z.land 292 146 <> 0%Z) /\
    (p_writable r = true <->
     Z.testbit 292 7 = true \/ Z.testbit 292 4 = true \/ Z.testbit 292 1 = true)).
Proof.
  assert (Hd : sys_param_dir sample_world "e1000e" = Some sample_entries)
    by reflexivity.
  assert (Hin : In (mk_entry "a" (EFile 292 None)) sample_entries)
    by (simpl; right; left; reflexivity).
  split; [exact Hd|split; [exact Hin|]].
  exact (read_sysfs_params_writable sample_world "e1000e" sample_entries "a" 292 None Hd Hin).
Defined.

Lemma read_sysfs_params_unreadable_witness :
  sys_param_dir sample_world "e1000e" =
    Some ([mk_entry "b" (EFile 420 (Some " 5
"))] ++ mk_entry "a" (EFile 292 None) :: [mk_entry "d" EOther])%list /\
  (exists ps, read_sysfs_params sample_world "e1000e" = inr ps /\
    In (mk_param "a" UNREADABLE (is_globally_writable 292) (param_path "e1000e" "a")) ps /\
    (forall (w' : World) (c : option string),
       sys_param_dir w' "e1000e" =
         Some ([mk_entry "b" (EFile 420 (Some " 5
"))] ++ mk_entry "a" (EFile 292 c) :: [mk_entry "d" EOther])%list ->
       exists ps', read_sysfs_params w' "e1000e" = inr ps' /\
         forall r, p_name r <> "a" -> (In r ps <-> In r ps'))).
Proof.
  assert (Hd : sys_param_dir sample_world "e1000e" =
    Some ([mk_entry "b" (EFile 420 (Some " 5
"))] ++ mk_entry "a" (EFile 292 None) :: [mk_entry "d" EOther])%list) by reflexivity.
  split; [exact Hd|].
  exact (read_sysfs_params_unreadable sample_world "e1000e" _ _ "a" 292 Hd).
Defined.

Lemma on_input_changed_blank_witness :
  (forall c, In c (list_ascii_of_string " 	 ") -> is_space c = true) /\
  on_input_changed prefix_score " 	 " ["e1000e"; "ext4"] = ["e1000e"; "ext4"].
Proof.
  assert (H : forall c, In c (list_ascii_of_string " 	 ") -> is_space c = true).
  { intros c Hc. simpl in Hc. intuition (subst; reflexivity). }
  split; [exact H|].
  exact (on_input_changed_blank prefix_score " 	 " ["e1000e"; "ext4"] H).
Defined.

Lemma on_input_changed_strip_threshold_witness :
  String.length (strip " a ") = 1%nat /\
  on_input_changed prefix_score " a " ["ab"; "xa"] =
  select 50 (extract prefix_score (strip " a ") ["ab"; "xa"] 200).
Proof.
  assert (H : String.length (strip " a ") = 1%nat) by reflexivity.
  split; [exact H|].
  exact (on_input_changed_strip_threshold prefix_score " a " ["ab"; "xa"] H).
Defined.

Lemma on_input_changed_ranked_witness :
  strip "e10" <> "" /\
  (let q := strip "e10" in
   let results := extract prefix_score q ["e1000e"; "e1000"; "ext4"] 200 in
   let out := on_input_changed prefix_score "e10" ["e1000e"; "e1000"; "ext4"] in
   List.length results = Nat.min (List.length ["e1000e"; "e1000"; "ext4"]) 200 /\
   (forall r, In r results -> snd r = score prefix_score q (fst r)) /\
   Sorted (fun a b => (snd b <= snd a)%Z) results /\
   (exists rest, Permutation (map fst results ++ rest)%list ["e1000e"; "e1000"; "ext4"] /\
      forall r y, In r results -> In y rest -> (score prefix_score q y <= snd r)%Z) /\
   out = (if existsb (fun r => Z.leb (threshold q) (snd r)) results
          then map fst (List.filter (fun r => Z.leb (threshold q) (snd r)) results)
          else map fst (firstn 20 results)) /\
   threshold q = (if (2 <=? String.length q)%nat then 65 else 50)%Z /\
   Sorted (fun a b => (b <= a)%Z) (map (score prefix_score q) out) /\
   (["e1000e"; "e1000"; "ext4"] <> [] -> out <> []) /\
   (forall n, In n out -> In n ["e1000e"; "e1000"; "ext4"])).
Proof.
  assert (H : strip "e10" <> "") by (intros H; vm_compute in H; discriminate H).
  split; [exact H|].
  exact (on_input_changed_ranked prefix_score "e10" ["e1000e"; "e1000"; "ext4"] H).
Defined.

Lemma edit_not_writable_rejected_witness :
  u_prompt (sample_ui (Some 0%nat) None) = None /\
  u_index (sample_ui (Some 0%nat) None) = Some 0%nat /\
  nth_error (param_children (sample_ui (Some 0%nat) None)) 0 = Some sample_row_a /\
  writable sample_row_a = false /\
  (step write_ok (sample_ui (Some 0%nat) None) EvEdit =
     notify (sample_ui (Some 0%nat) None) Warning (warn_not_writable (name sample_row_a)) /\
   u_prompt (step write_ok (sample_ui (Some 0%nat) None) EvEdit) = None /\
   u_writes (step write_ok (sample_ui (Some 0%nat) None) EvEdit) =
     u_writes (sample_ui (Some 0%nat) None) /\
   u_world (step write_ok (sample_ui (Some 0%nat) None) EvEdit) =
     u_world (sample_ui (Some 0%nat) None) /\
   (forall (s0 : ui) (evs : list event) (v : string),
      u_prompt s0 = None -> u_writes s0 = [] ->
      ~ In (sample_row_a, v) (u_writes (run write_ok s0 evs)))).
Proof.
  assert (H1 : u_prompt (sample_ui (Some 0%nat) None) = None) by reflexivity.
  assert (H2 : u_index (sample_ui (Some 0%nat) None) = Some 0%nat) by reflexivity.
  assert (H3 : nth_error (param_children (sample_ui (Some 0%nat) None)) 0 = Some sample_row_a)
    by reflexivity.
  assert (H4 : writable sample_row_a = false) by reflexivity.
  split; [exact H1|split; [exact H2|split; [exact H3|split; [exact H4|]]]].
  exact (edit_not_writable_rejected write_ok _ 0 sample_row_a H1 H2 H3 H4).
Defined.

Lemma check_edit_outcomes_witness :
  u_prompt (sample_ui (Some 1%nat) (Some sample_row_b)) = Some sample_row_b /\
  ((let s' := step write_einval (sample_ui (Some 1%nat) (Some sample_row_b)) (EvClose None) in
    u_model s' = u_model (sample_ui (Some 1%nat) (Some sample_row_b)) /\
    u_notes s' = u_notes (sample_ui (Some 1%nat) (Some sample_row_b)) /\
    u_world s' = u_world (sample_ui (Some 1%nat) (Some sample_row_b)) /\
    u_writes s' = u_writes (sample_ui (Some 1%nat) (Some sample_row_b)) /\
    u_prompt s' = None) /\
   (forall v w' e,
      write_einval (u_world (sample_ui (Some 1%nat) (Some sample_row_b))) (path sample_row_b) v
        = (w', Some e) ->
      let s' := step write_einval (sample_ui (Some 1%nat) (Some sample_row_b))
                     (EvClose (Some v)) in
      u_model s' = u_model (sample_ui (Some 1%nat) (Some sample_row_b)) /\
      u_prompt s' = None /\
      u_notes s' = (u_notes (sample_ui (Some 1%nat) (Some sample_row_b)) ++
                    [(Error, err_write e)])%list) /\
   (forall v w' md,
      u_model (sample_ui (Some 1%nat) (Some sample_row_b)) = Some md ->
      write_einval (u_world (sample_ui (Some 1%nat) (Some sample_row_b))) (path sample_row_b) v
        = (w', None) ->
      let s' := step write_einval (sample_ui (Some 1%nat) (Some sample_row_b))
                     (EvClose (Some v)) in
      exists md', get_module_model w' (module md) = inr md' /\
        u_model s' = Some md' /\ u_world s' = w' /\ u_prompt s' = None /\
        u_notes s' = (u_notes (sample_ui (Some 1%nat) (Some sample_row_b)) ++
                      [(Information, ok_updated (name sample_row_b) v)])%list)).
Proof.
  assert (H : u_prompt (sample_ui (Some 1%nat) (Some sample_row_b)) = Some sample_row_b)
    by reflexivity.
  split; [exact H|].
  exact (check_edit_outcomes write_einval _ sample_row_b H).
Defined.


(* ================================================================== *)
(** * Further properties of the program *)

(* ------------------------------------------------------------------ *)
(** ** Sorting the module names *)

Lemma insert_string_perm x l : Permutation (insert_string x l) (x :: l).
Proof.
  induction l as [|y l IH]; simpl; [reflexivity|].
  destruct (String.leb x y); [reflexivity|].
  rewrite IH. apply perm_swap.
Qed.

Lemma sort_strings_perm l : Permutation (sort_strings l) l.
Proof.
  induction l as [|x l IH]; simpl; [reflexivity|].
  rewrite insert_string_perm. by constructor.
Qed.

Lemma insert_string_sorted x l :
  StronglySorted (fun a b => String.leb a b = true) l ->
  StronglySorted (fun a b => String.leb a b = true) (insert_string x l).
Proof.
  induction l as [|y l IH]; simpl; intros Hs.
  - repeat constructor.
  - inversion Hs as [|? ? Hl Hy]; subst.
    destruct (String.leb x y) eqn:Hxy.
    + constructor; [exact Hs|]. constructor; [exact Hxy|].
      eapply Forall_impl; [exact Hy|]. intros z Hz.
      eapply string_leb_trans; eassumption.
    + constructor; [exact (IH Hl)|].
      apply List.Forall_forall. intros z Hz.
      apply (Permutation_in _ (insert_string_perm x l)) in Hz.
      destruct Hz as [<-|Hz].
      * destruct (String.leb_total x y); congruence.
      * exact (proj1 (List.Forall_forall _ _) Hy z Hz).
Qed.

Lemma sort_strings_sorted l :
  StronglySorted (fun a b => String.leb a b = true) (sort_strings l).
Proof.
  induction l as [|x l IH]; simpl; [constructor|]. by apply insert_string_sorted.
Qed.

(* ------------------------------------------------------------------ *)
(** ** [str.strip] and [str.split] *)

(** No leading whitespace after [lstrip]. *)
Lemma lstrip_head s : lstrip s = "" \/ exists c r, lstrip s = String c r /\ is_space c = false.
Proof.
  induction s as [|c s IH]; simpl; [by left|].
  destruct (is_space c) eqn:Hc; [exact IH|]. right. eauto.
Qed.

Lemma lstrip_nonspace c r : is_space c = false -> lstrip (String c r) = String c r.
Proof. simpl. intros ->. reflexivity. Qed.

Lemma rstrip_cons c r :
  rstrip (String c r) = "" \/ rstrip (String c r) = String c (rstrip r).
Proof.
  simpl. destruct (is_space c && String.eqb (rstrip r) ""); auto.
Qed.

Lemma rstrip_idem s : rstrip (rstrip s) = rstrip s.
Proof.
  induction s as [|c s IH]; [reflexivity|].
  simpl. destruct (is_space c && String.eqb (rstrip s) "") eqn:H; [reflexivity|].
  simpl. rewrite IH, H. reflexivity.
Qed.

Lemma strip_idem s : strip (strip s) = strip s.
Proof.
  unfold strip.
  assert (lstrip (rstrip (lstrip s)) = rstrip (lstrip s)) as ->.
  { destruct (lstrip_head s) as [-> | [c [r [-> Hc]]]]; [reflexivity|].
    destruct (rstrip_cons c r) as [-> | ->]; [reflexivity|].
    by apply lstrip_nonspace. }
  apply rstrip_idem.
Qed.



Lemma no_space_snoc cur c :
  no_space cur -> is_space c = false -> no_space (cur ++ String c "").
Proof.
  intros Hcur Hc x Hx. induction cur as [|d cur IH]; simpl in Hx.
  - destruct Hx as [<-|[]]. exact Hc.
  - destruct Hx as [<-|Hx].
    + apply Hcur. simpl. by left.
    + apply IH; [|exact Hx]. intros y Hy. apply Hcur. simpl. by right.
Qed.

Lemma split_ws_aux_tokens s cur t :
  no_space cur -> In t (split_ws_aux cur s) -> t <> "" /\ no_space t.
Proof.
  revert cur; induction s as [|c s IH]; intros cur Hcur; simpl.
  - destruct (String.eqb cur "") eqn:He; simpl; [done|].
    intros [<-|[]]. split; [|exact Hcur]. intros ->. discriminate.
  - destruct (is_space c) eqn:Hc.
    + destruct (String.eqb cur "") eqn:He.
      * apply IH. intros x [].
      * intros [<-|H]; [|exact (IH "" (fun x (H : In x []) => match H with end) H)].
        split; [|exact Hcur]. intros ->. discriminate.
    + apply IH. by apply no_space_snoc.
Qed.

Lemma split_ws_tokens s t : In t (split_ws s) -> t <> "" /\ no_space t.
Proof. apply split_ws_aux_tokens. intros x []. Qed.

(* ------------------------------------------------------------------ *)
(** ** The configuration reader *)

Lemma etc_line_other m fname cfg raw :
  (m = "" \/ exists c, In c (list_ascii_of_string m) /\ is_space c = true) ->
  etc_line m fname cfg raw = cfg.
Proof.
  intros Hm. unfold etc_line.
  destruct (String.eqb (strip raw) "" || String.prefix "#" (strip raw)); [reflexivity|].
  destruct (3 <=? List.length (split_ws (strip raw)))%nat eqn:Hlen; [|reflexivity].
  destruct (String.eqb (nth 0 (split_ws (strip raw)) "") "options"); [|reflexivity].
  destruct (String.eqb (nth 1 (split_ws (strip raw)) "") m) eqn:Heq; [|reflexivity].
  exfalso. apply String.eqb_eq in Heq. apply Nat.leb_le in Hlen.
  assert (In m (split_ws (strip raw))) as Hin.
  { rewrite <- Heq. apply nth_In. lia. }
  destruct (split_ws_tokens _ _ Hin) as [Hne Hns].
  destruct Hm as [Hm | [c [Hc Hsp]]]; [exact (Hne Hm)|].
  rewrite (Hns c Hc) in Hsp. discriminate.
Qed.

Lemma etc_loop_other m fs cfg :
  (m = "" \/ exists c, In c (list_ascii_of_string m) /\ is_space c = true) ->
  etc_loop m fs cfg = inr cfg.
Proof.
  intros Hm. revert cfg; induction fs as [|f fs IH]; intros cfg; simpl; [reflexivity|].
  rewrite etc_file_eq. simpl. rewrite <- (IH cfg). f_equal.
  destruct (snd f) as [text|]; [|reflexivity].
  generalize (splitlines text). intros ls. revert cfg. clear IH.
  induction ls as [|l ls IHl]; intros cfg; simpl; [reflexivity|].
  rewrite etc_line_other by exact Hm. apply IHl.
Qed.

Lemma etc_part_nonempty fname line cfg part :
  (forall k l, cfg !! k = Some l -> l <> []) ->
  forall k l, etc_part fname line cfg part !! k = Some l -> l <> [].
Proof.
  intros Hc k l. unfold etc_part.
  destruct (partition_at "=" part) as [[pn pv]|]; [|apply Hc].
  destruct (decide (pn = k)) as [<-|Hne].
  - rewrite lookup_insert_eq. intros [= <-]. destruct (default [] (cfg !! pn)); discriminate.
  - rewrite lookup_insert_ne by congruence. apply Hc.
Qed.

Lemma etc_loop_nonempty m fs cfg cfg' :
  (forall k l, cfg !! k = Some l -> l <> []) ->
  etc_loop m fs cfg = inr cfg' ->
  forall k l, cfg' !! k = Some l -> l <> [].
Proof.
  revert cfg; induction fs as [|f fs IH]; intros cfg Hc; simpl.
  - intros [= <-]. exact Hc.
  - rewrite etc_file_eq. simpl. apply IH.
    destruct (snd f) as [text|]; [|exact Hc].
    generalize (splitlines text). intros ls. revert cfg Hc. clear IH.
    induction ls as [|l ls IHl]; intros cfg Hc; simpl; [exact Hc|].
    apply IHl. unfold etc_line.
    destruct (_ || _); [exact Hc|].
    destruct (_ && _ && _); [|exact Hc].
    generalize (skipn 2 (split_ws (strip l))). intros ps. revert cfg Hc.
    induction ps as [|p ps IHp]; intros cfg Hc; simpl; [exact Hc|].
    apply IHp. by apply etc_part_nonempty.
Qed.

(* ------------------------------------------------------------------ *)
(** ** The [modinfo] reader *)

Lemma modinfo_line_lookup acc line k :
  modinfo_line acc line !! k =
  match last (List.filter (fun kv => String.eqb (fst kv) k) (modinfo_entry line)) with
  | Some kv => Some (snd kv)
  | None => acc !! k
  end.
Proof.
  unfold modinfo_line, modinfo_entry.
  destruct (String.eqb (strip line) ""); [reflexivity|].
  destruct (partition_at ":" (strip line)) as [[n d]|]; [|reflexivity].
  simpl. destruct (String.eqb (strip n) k) eqn:Hk; simpl.
  - apply String.eqb_eq in Hk. subst k. by rewrite lookup_insert_eq.
  - apply String.eqb_neq in Hk. by rewrite lookup_insert_ne.
Qed.

Lemma fold_modinfo_lookup lines acc k :
  fold_left modinfo_line lines acc !! k =
  match last (List.filter (fun kv => String.eqb (fst kv) k)
                (flat_map modinfo_entry lines)) with
  | Some kv => Some (snd kv)
  | None => acc !! k
  end.
Proof.
  revert acc; induction lines as [|l ls IH]; intros acc; simpl; [reflexivity|].
  rewrite IH, List.filter_app, last_app, modinfo_line_lookup.
  destruct (last (List.filter _ (flat_map modinfo_entry ls))); reflexivity.
Qed.

(* ------------------------------------------------------------------ *)
(** ** The filter and the module list *)

Lemma NoDup_app_l {A} (l1 l2 : list A) : List.NoDup (l1 ++ l2)%list -> List.NoDup l1.
Proof.
  induction l1 as [|x l1 IH]; simpl; intros H; [constructor|].
  inversion H as [|? ? Hx Hl]; subst. constructor; [|exact (IH Hl)].
  intros Hin. apply Hx. apply in_app_iff. by left.
Qed.

Lemma extract_names (raw_score : string -> string -> Q) q M n :
  exists rest, Permutation (map fst (extract raw_score q M n) ++ rest)%list M.
Proof.
  set (S := sort_desc (map (fun c => (c, raw_score q c)) M)).
  exists (map fst (skipn n S)).
  assert (map fst (extract raw_score q M n) = map fst (firstn n S)) as ->.
  { unfold extract. rewrite map_map. reflexivity. }
  rewrite <- map_app, firstn_skipn.
  transitivity (map fst (map (fun c => (c, raw_score q c)) M)).
  - apply Permutation_map, sort_desc_perm.
  - rewrite map_map. simpl. by rewrite map_id.
Qed.

Lemma length_extract (raw_score : string -> string -> Q) q M n :
  List.length (extract raw_score q M n) = Nat.min n (List.length M).
Proof.
  unfold extract. rewrite length_map, length_firstn.
  by rewrite (Permutation_length (sort_desc_perm _)), length_map.
Qed.

Lemma select_nodup thr results :
  List.NoDup (map fst results) ->
  List.NoDup (select thr results) /\ (List.length (select thr results) <= List.length results)%nat.
Proof.
  intros Hn. unfold select.
  destruct (map fst (List.filter _ results)) as [|x l] eqn:Hf.
  - split.
    + apply (NoDup_app_l _ (map fst (skipn 20 results))).
      by rewrite <- map_app, firstn_skipn.
    + rewrite length_map, length_firstn. lia.
  - rewrite <- Hf. split; [by apply NoDup_map_filter|].
    rewrite length_map. apply filter_length_le.
Qed.


Lemma select_nonempty thr results : results <> [] -> select thr results <> [].
Proof.
  intros Hr. unfold select.
  destruct (map fst (List.filter _ results)) as [|x l]; [|discriminate].
  destruct results; [congruence|]. discriminate.
Qed.

Lemma on_input_changed_nonempty (raw_score : string -> string -> Q) value M :
  M <> [] -> on_input_changed raw_score value M <> [].
Proof.
  intros HM. unfold on_input_changed.
  destruct (String.eqb (strip value) ""); [exact HM|].
  apply select_nonempty. intros He.
  pose proof (length_extract raw_score (strip value) M 200) as Hl.
  rewrite He in Hl. destruct M; [congruence|]. simpl in Hl. lia.
Qed.

Lemma on_input_changed_nil (raw_score : string -> string -> Q) value :
  on_input_changed raw_score value [] = [].
Proof.
  unfold on_input_changed. destruct (String.eqb (strip value) ""); reflexivity.
Qed.

Lemma get_module_model_ok w m : exists md, get_module_model w m = inr md.
Proof.
  destruct (get_modinfo_details_ok w m) as [descs Hd].
  destruct (get_etc_configs_ok w m) as [etc He].
  eexists. exact (get_module_model_eq w m descs etc Hd He).
Qed.

Lemma render_list_cons n rest s :
  exists md, get_module_model (u_world s) n = inr md /\
    render_list (n :: rest) s =
    mk_ui (u_world s) (Some md) None (u_prompt s) (u_notes s) (u_writes s).
Proof.
  destruct (get_module_model_ok (u_world s) n) as [md Hmd].
  exists md. split; [exact Hmd|]. simpl. unfold load_details. by rewrite Hmd.
Qed.

Lemma NoDup_map_inj {A B} (f : A -> B) l a b :
  List.NoDup (map f l) -> In a l -> In b l -> f a = f b -> a = b.
Proof.
  induction l as [|x l IH]; simpl; [done|]. intros Hn Ha Hb Hab.
  inversion Hn as [|? ? Hx Hl]; subst.
  destruct Ha as [<-|Ha], Hb as [<-|Hb]; auto.
  - exfalso. apply Hx. rewrite Hab. by apply in_map.
  - exfalso. apply Hx. rewrite <- Hab. by apply in_map.
Qed.

(* ------------------------------------------------------------------ *)
(** ** The edit workflow *)

Section WorkflowMore.

Variable write_text : World -> string -> string -> World * option string.


Lemma check_edit_writes p v s :
  u_writes (check_edit write_text p (Some v) s) = (u_writes s ++ [(p, v)])%list.
Proof.
  unfold check_edit.
  destruct (write_text (u_world s) (path p) v) as [w' [e|]]; [reflexivity|].
  cbn [notify u_model u_writes].
  destruct (u_model s) as [md|]; [|reflexivity].
  destruct (load_details _ (module md)) as [e|s3] eqn:Hl; [reflexivity|].
  apply load_details_keeps in Hl as (_ & Hw & _). exact Hw.
Qed.

End WorkflowMore.

(* ------------------------------------------------------------------ *)
(** ** [format_module_details] *)

Lemma str_app_cons c (x y : string) : (String c x ++ y) = String c (x ++ y).
Proof. reflexivity. Qed.

Lemma str_app_assoc (x y z : string) : ((x ++ y) ++ z) = x ++ (y ++ z).
Proof.
  induction x as [|c x IH]; [reflexivity|]. rewrite !str_app_cons. by rewrite IH.
Qed.

Lemma rstrip_app_nonspace a c b :
  is_space c = false -> rstrip (a ++ String c b) = a ++ String c (rstrip b).
Proof.
  intros Hc. induction a as [|d a IH].
  - simpl. by rewrite Hc.
  - rewrite !str_app_cons. simpl. rewrite IH.
    assert (String.eqb (a ++ String c (rstrip b)) "" = false) as ->
      by (destruct a; reflexivity).
    by rewrite andb_false_r.
Qed.

Lemma rstrip_app_keep x y : rstrip y <> "" -> rstrip (x ++ y) = x ++ rstrip y.
Proof.
  intros Hy. induction x as [|d x IH]; [reflexivity|].
  rewrite !str_app_cons. simpl. rewrite IH.
  assert (String.eqb (x ++ rstrip y) "" = false) as ->.
  { apply String.eqb_neq. destruct x; [exact Hy|discriminate]. }
  by rewrite andb_false_r.
Qed.

Lemma strip_title (m t : string) :
  strip ("[b]" ++ m ++ "[/b]" ++ t) = "[b]" ++ m ++ "[/b]" ++ rstrip t.
Proof.
  unfold strip. change (lstrip ("[b]" ++ m ++ "[/b]" ++ t)) with ("[b]" ++ m ++ "[/b]" ++ t).
  assert (Hy : rstrip ("[/b]" ++ t) = "[/b]" ++ rstrip t) by reflexivity.
  rewrite rstrip_app_keep.
  - rewrite rstrip_app_keep; [by rewrite Hy|]. rewrite Hy. discriminate.
  - rewrite rstrip_app_keep; [|rewrite Hy; discriminate].
    rewrite Hy. destruct m; discriminate.
Qed.


(** X1: [get_loaded_modules] returns the empty list when [/sys/module]
    does not exist; otherwise it returns the names of the directory
    entries of [/sys/module] (entries that are not directories are left
    out), each as often as it is listed, in ascending order. *)
(* ------------------------------------------------------------------ *)
(** ** Statements *)

Theorem get_loaded_modules_sorted_dirs (sys_module : option (list sys_entry)) :
  match sys_module with
  | None => get_loaded_modules sys_module = []
  | Some ds =>
      StronglySorted (fun a b => String.leb a b = true) (get_loaded_modules sys_module) /\
      Permutation (get_loaded_modules sys_module) (map sname (List.filter sis_dir ds))
  end.
Proof.
  destruct sys_module as [ds|]; [|reflexivity]. simpl.
  split; [apply sort_strings_sorted|apply sort_strings_perm].
Qed.

(** X2: the description [get_modinfo_details] gives a parameter is the
    one of the last line of the [modinfo -p] output that names it (split
    at the first [:], both parts trimmed; blank lines and lines without
    [:] give nothing); when [modinfo] cannot be run or exits with a
    non-zero code, the mapping is empty. *)
Theorem get_modinfo_details_last (w : World) (m : string) :
  exists d, get_modinfo_details w m = inr d /\
  forall k, d !! k =
    match modinfo_run w m with
    | Some (rc, out) =>
        if Z.eqb rc 0
        then option_map snd (last (List.filter (fun kv => String.eqb (fst kv) k)
                                     (flat_map modinfo_entry (splitlines out))))
        else None
    | None => None
    end.
Proof.
  unfold get_modinfo_details. destruct (modinfo_run w m) as [[rc out]|]; simpl.
  - destruct (Z.eqb rc 0); simpl.
    + eexists. split; [reflexivity|]. intros k. rewrite fold_modinfo_lookup.
      destruct (last _); reflexivity.
    + eexists. split; [reflexivity|]. intros k. apply lookup_empty.
  - eexists. split; [reflexivity|]. intros k. apply lookup_empty.
Qed.

(** X3: [get_etc_configs] never maps a parameter name to an empty list:
    a name is a key only once a directive for it was read. *)
Theorem get_etc_configs_nonempty (w : World) (m : string) :
  exists cfg, get_etc_configs w m = inr cfg /\
  forall k l, cfg !! k = Some l -> l <> [].
Proof.
  unfold get_etc_configs. destruct (modprobe_d w) as [fs|].
  - destruct (etc_loop_ok m fs ∅) as [cfg Hcfg]. exists cfg. split; [exact Hcfg|].
    apply (etc_loop_nonempty m fs ∅ cfg); [|exact Hcfg].
    intros k l. by rewrite lookup_empty.
  - exists ∅. split; [reflexivity|]. intros k l. by rewrite lookup_empty.
Qed.

(** X4: for an empty module name, or one containing whitespace,
    [get_etc_configs] returns the empty mapping whatever the files say:
    the second token of a line is never empty and never contains
    whitespace. *)
Theorem get_etc_configs_blank_name (w : World) (m : string) :
  (m = "" \/ exists c, In c (list_ascii_of_string m) /\ is_space c = true) ->
  get_etc_configs w m = inr ∅.
Proof.
  intros Hm. unfold get_etc_configs. destruct (modprobe_d w) as [fs|]; [|reflexivity].
  by apply etc_loop_other.
Qed.

(** X5: every current value in the model [get_module_model] builds has
    no leading or trailing whitespace ([strip] leaves it unchanged). *)
Theorem get_module_model_trimmed (w : World) (m : string) :
  exists md, get_module_model w m = inr md /\
  forall r, In r (params md) -> strip (current r) = current r.
Proof.
  destruct (get_modinfo_details_ok w m) as [descs Hd].
  destruct (get_etc_configs_ok w m) as [etc He].
  eexists. split; [exact (get_module_model_eq w m descs etc Hd He)|].
  simpl. intros r Hr. apply in_map_iff in Hr as [x [<- Hx]].
  destruct (sys_param_dir w m) as [es|]; [|destruct Hx].
  apply in_flat_map in Hx as [e [_ Hx]]. unfold entry_record in Hx.
  destruct (ekind_of e) as [mode [t|]|]; simpl in Hx; [| |destruct Hx];
    destruct Hx as [<-|[]]; simpl; [apply strip_idem|reflexivity].
Qed.

(** X6: when the module list has no duplicate, the filtered list has
    none either; it is never longer than the module list, and for a
    non-blank query never longer than 200. *)
Theorem on_input_changed_nodup (raw_score : string -> string -> Q)
  (value : string) (M : list string) :
  List.NoDup M ->
  List.NoDup (on_input_changed raw_score value M) /\
  (List.length (on_input_changed raw_score value M) <= List.length M)%nat /\
  (strip value <> "" -> (List.length (on_input_changed raw_score value M) <= 200)%nat).
Proof.
  intros HM. unfold on_input_changed.
  destruct (String.eqb (strip value) "") eqn:Hb.
  - apply String.eqb_eq in Hb. split; [exact HM|split; [lia|congruence]].
  - set (q := strip value). set (results := extract raw_score q M 200).
    destruct (extract_names raw_score q M 200) as [rest Hp].
    assert (Hn : List.NoDup (map fst results)).
    { apply (NoDup_app_l _ rest). exact (Permutation_NoDup (Permutation_sym Hp) HM). }
    destruct (select_nodup (threshold q) results Hn) as [Hs Hl].
    pose proof (length_extract raw_score q M 200) as Hlen. fold results in Hlen.
    split; [exact Hs|split; [lia|intros _; lia]].
Qed.

(** X7: opening the modal on a selected writable parameter and pressing
    Save without editing the input writes the pre-filled current value
    back to the parameter (the [<Unreadable>] sentinel when the value
    could not be read); any other button closes the modal and returns to
    exactly the state before it opened, with nothing written. *)
Theorem edit_save_prefilled
  (write_text : World -> string -> string -> World * option string)
  (s : ui) (i : nat) (p : mparam) :
  u_prompt s = None -> u_index s = Some i ->
  nth_error (param_children s) i = Some p -> writable p = true ->
  let s1 := step write_text s EvEdit in
  u_prompt s1 = Some p /\
  u_writes (step write_text s1
              (EvClose (edit_modal_dismiss "save" (edit_modal_initial p)))) =
    (u_writes s ++ [(p, current p)])%list /\
  (forall b v, b <> "save" ->
     step write_text s1 (EvClose (edit_modal_dismiss b v)) = s).
Proof.
  intros Hp Hi Hn Hw. cbv zeta.
  assert (Hs1 : step write_text s EvEdit = set_prompt s (Some p)).
  { simpl. unfold action_edit_parameter. by rewrite Hp, Hi, Hn, Hw. }
  rewrite Hs1. split; [reflexivity|]. split.
  - change (u_writes (check_edit write_text p (Some (current p))
                        (set_prompt (set_prompt s (Some p)) None)) =
            (u_writes s ++ [(p, current p)])%list).
    by rewrite check_edit_writes.
  - intros b v Hb. simpl. unfold edit_modal_dismiss.
    apply String.eqb_neq in Hb. rewrite Hb. simpl.
    destruct s; simpl in *. by subst.
Qed.


(** X9: a change of the search text keeps the module list; when that
    list is empty the filtered list is empty and nothing else changes;
    otherwise the filtered list is not empty and the details shown are a
    fresh model of its first name. *)
Theorem app_input_changed_render (raw_score : string -> string -> Q)
  (a : app) (value : string) :
  let a' := app_input_changed raw_score a value in
  a_all a' = a_all a /\
  (a_all a = [] -> a_filtered a' = [] /\ a_ui a' = a_ui a) /\
  (a_all a <> [] ->
   exists n rest md, a_filtered a' = n :: rest /\
     get_module_model (u_world (a_ui a)) n = inr md /\
     a_ui a' = mk_ui (u_world (a_ui a)) (Some md) None (u_prompt (a_ui a))
                     (u_notes (a_ui a)) (u_writes (a_ui a))).
Proof.
  cbv zeta. unfold app_input_changed. simpl. split; [reflexivity|]. split.
  - intros ->. by rewrite on_input_changed_nil.
  - intros Hne.
    destruct (on_input_changed raw_score value (a_all a)) as [|n rest] eqn:Hf.
    + exfalso. exact (on_input_changed_nonempty raw_score value _ Hne Hf).
    + destruct (render_list_cons n rest (a_ui a)) as [md [Hmd Hr]].
      exists n, rest, md. auto.
Qed.

(** X10: at start-up the module list and the filtered list are both
    [get_loaded_modules]; when it is not empty, the details shown are a
    fresh model of its first name, which is the smallest; otherwise
    nothing is loaded. *)
Theorem app_on_mount_first (sys_module : option (list sys_entry)) (s : ui) :
  let a := app_on_mount sys_module s in
  a_all a = get_loaded_modules sys_module /\ a_filtered a = a_all a /\
  match a_all a with
  | [] => a_ui a = s
  | n :: rest =>
      (forall x, In x rest -> String.leb n x = true) /\
      exists md, get_module_model (u_world s) n = inr md /\
        a_ui a = mk_ui (u_world s) (Some md) None (u_prompt s) (u_notes s) (u_writes s)
  end.
Proof.
  cbv zeta. unfold app_on_mount. simpl. split; [reflexivity|]. split; [reflexivity|].
  pose proof (sort_strings_sorted (map sname (List.filter sis_dir
                (match sys_module with Some ds => ds | None => [] end)))) as Hs.
  destruct sys_module as [ds|]; [|reflexivity]. simpl.
  destruct (sort_strings _) as [|n rest] eqn:Hl; [reflexivity|].
  split.
  - inversion Hs as [|? ? _ Hn]; subst. intros x Hx.
    exact (proj1 (List.Forall_forall _ _) Hn x Hx).
  - destruct (render_list_cons n rest s) as [md [Hmd Hr]]. eauto.
Qed.

(** X11: after a successful save, when the names in the parameter
    directory are unique and the parameter's file can be read back, the
    rebuilt model has exactly one row
    for the edited parameter, and it shows the value read back from the
    parameter file (trimmed), not the value typed in, with the writable
    flag of the file's mode bits. *)
Theorem save_shows_reread
  (write_text : World -> string -> string -> World * option string)
  (s : ui) (p : mparam) (v : string) (md : module_model) (w' : World)
  (es : list entry) (mode : Z) (c : string) :
  u_prompt s = Some p -> u_model s = Some md ->
  write_text (u_world s) (path p) v = (w', None) ->
  sys_param_dir w' (module md) = Some es -> List.NoDup (map ename es) ->
  In (mk_entry (name p) (EFile mode (Some c))) es ->
  exists md', u_model (step write_text s (EvClose (Some v))) = Some md' /\
    module md' = module md /\
    exists r, In r (params md') /\ name r = name p /\ current r = strip c /\
      writable r = is_globally_writable mode /\
      forall r', In r' (params md') -> name r' = name p -> r' = r.
Proof.
  intros Hp Hm Hw Hes Hnd Hin. simpl. rewrite Hp. unfold check_edit.
  simpl. rewrite Hw. simpl. rewrite Hm.
  destruct (get_modinfo_details_ok w' (module md)) as [descs Hd].
  destruct (get_etc_configs_ok w' (module md)) as [etc He].
  unfold load_details. simpl.
  rewrite (get_module_model_eq w' (module md) descs etc Hd He), Hes. simpl.
  eexists. split; [reflexivity|]. split; [reflexivity|].
  set (x := mk_param (name p) (strip c) (is_globally_writable mode)
                     (param_path (module md) (name p))).
  exists (merge_param descs etc x). split; [|split; [reflexivity|split; [reflexivity|split; [reflexivity|]]]].
  - apply in_map. apply in_flat_map_sort. apply in_flat_map.
    exists (mk_entry (name p) (EFile mode (Some c))). split; [exact Hin|]. by left.
  - intros r' Hr' Hn. apply in_map_iff in Hr' as [y [<- Hy]].
    apply (proj1 (in_flat_map_sort _ _ _)), in_flat_map in Hy as [e [He' Hy]].
    unfold entry_record in Hy.
    destruct (ekind_of e) as [mode' c'|] eqn:Hk; [|destruct Hy].
    destruct Hy as [<-|[]]. simpl in Hn.
    assert (e = mk_entry (name p) (EFile mode (Some c))) as ->.
    { apply (NoDup_map_inj ename es); [exact Hnd|exact He'|exact Hin|exact Hn]. }
    simpl in Hk. injection Hk as <- <-. reflexivity.
Qed.



(** X12: the text [format_module_details] returns starts with the bold
    module title and has no leading or trailing whitespace. *)
Theorem format_module_details_title (md : module_model) :
  exists rest, format_module_details md = "[b]" ++ module md ++ "[/b]" ++ rest /\
               strip (format_module_details md) = format_module_details md.
Proof.
  unfold format_module_details. destruct (params md) as [|p ps].
  - eexists. split; [reflexivity|]. rewrite strip_title. reflexivity.
  - cbn [List.app].
    change (String.concat nl (("[b]" ++ module md ++ "[/b]") :: ?l))
      with (("[b]" ++ module md ++ "[/b]") ++ nl ++ String.concat nl l).
    rewrite !str_app_assoc, strip_title.
    eexists. split; [reflexivity|].
    rewrite <- strip_title. apply strip_idem.
Qed.

(* ------------------------------------------------------------------ *)
(** ** Witnesses *)

Lemma get_etc_configs_blank_name_witness :
  (exists c, In c (list_ascii_of_string "e1000e ") /\ is_space c = true) /\
  get_etc_configs sample_world "e1000e " = inr ∅.
Proof.
  assert (H : exists c, In c (list_ascii_of_string "e1000e ") /\ is_space c = true)
    by (exists " "%char; split; [simpl; tauto|reflexivity]).
  split; [exact H|]. apply get_etc_configs_blank_name. by right.
Defined.

Lemma on_input_changed_nodup_witness :
  List.NoDup ["e1000e"; "snd"; "ext4"] /\
  List.NoDup (on_input_changed prefix_score "e" ["e1000e"; "snd"; "ext4"]) /\
  (List.length (on_input_changed prefix_score "e" ["e1000e"; "snd"; "ext4"]) <= 3)%nat /\
  (strip "e" <> "" ->
   (List.length (on_input_changed prefix_score "e" ["e1000e"; "snd"; "ext4"]) <= 200)%nat).
Proof.
  assert (H : List.NoDup ["e1000e"; "snd"; "ext4"]).
  { constructor; [simpl; intros [H|[H|[]]]; discriminate|].
    constructor; [simpl; intros [H|[]]; discriminate|].
    constructor; [intros []|constructor]. }
  split; [exact H|]. exact (on_input_changed_nodup prefix_score "e" _ H).
Defined.

Lemma edit_save_prefilled_witness :
  u_prompt (sample_ui (Some 1) None) = None /\
  u_index (sample_ui (Some 1) None) = Some 1 /\
  nth_error (param_children (sample_ui (Some 1) None)) 1 = Some sample_row_b /\
  writable sample_row_b = true /\
  let s1 := step write_ok (sample_ui (Some 1) None) EvEdit in
  u_prompt s1 = Some sample_row_b /\
  u_writes (step write_ok s1
              (EvClose (edit_modal_dismiss "save" (edit_modal_initial sample_row_b)))) =
    (u_writes (sample_ui (Some 1) None) ++ [(sample_row_b, current sample_row_b)])%list /\
  (forall b v, b <> "save" ->
     step write_ok s1 (EvClose (edit_modal_dismiss b v)) = sample_ui (Some 1) None).
Proof.
  split; [reflexivity|]. split; [reflexivity|]. split; [reflexivity|].
  split; [reflexivity|].
  apply edit_save_prefilled with (i := 1); reflexivity.
Defined.


Lemma save_shows_reread_witness :
  sys_param_dir (fst (sysfs_store sample_world (path sample_row_b) "8")) "e1000e" =
    Some sample_entries_8 /\
  exists md', u_model (step sysfs_store (sample_ui None (Some sample_row_b))
                         (EvClose (Some "8"))) = Some md' /\
    module md' = module sample_model /\
    exists r, In r (params md') /\ name r = name sample_row_b /\
      current r = strip ("8" ++ nl) /\ writable r = is_globally_writable 420 /\
      forall r', In r' (params md') -> name r' = name sample_row_b -> r' = r.
Proof.
  split; [reflexivity|].
  apply (save_shows_reread sysfs_store (sample_ui None (Some sample_row_b)) sample_row_b
           "8" sample_model (fst (sysfs_store sample_world (path sample_row_b) "8"))
           sample_entries_8 420 ("8" ++ nl)); try reflexivity.
  - constructor; [simpl; intros [H|[H|[]]]; discriminate|].
    constructor; [simpl; intros [H|[]]; discriminate|].
    constructor; [intros []|constructor].
  - simpl. left. reflexivity.
Defined.
